(** * Mantra component mounters: the mount / unmount / cleanup lifecycle

    A shallow embedding of [examples/mounters/reactMount.js] and of its
    Solid sibling (the second half of the same source listing), together
    with the invariants of the singleton "mounted root" they maintain.

    The two JavaScript modules keep two module-level variables each
    ([root] / [dispose], and [rootElement]) and talk to two external
    collaborators: the document (lookup by id, element creation,
    append to body, removal from the parent) and the rendering backend
    (obtain a handle for a container, render into a handle, dispose a
    handle).  Both collaborators are modelled as explicit stores, so that
    references (DOM nodes, render handles) keep their identity: the
    variable [rootElement] holds a reference into the element store, not a
    copy of the element. *)

From stdpp Require Import base option list gmap strings.

Open Scope string_scope.
Open Scope list_scope.
Open Scope nat_scope.

(** ** Results of a JavaScript call *)

Inductive js_error :=
| TypeError (msg : string).

(** A call either returns, or throws; in both cases it leaves a state
    behind (assignments made before a throw are not rolled back). *)
Inductive outcome (S : Type) :=
| Returned (s : S)
| Threw (e : js_error) (s : S).
Arguments Returned {S} s.
Arguments Threw {S} e s.

(** The state a call leaves behind. *)
Definition state_after {S : Type} (o : outcome S) : S :=
  match o with Returned s => s | Threw _ s => s end.

Definition and_then {S : Type} (o : outcome S) (k : S -> outcome S) : outcome S :=
  match o with
  | Returned s => k s
  | Threw e s => Threw e s
  end.

(** ** What is rendered: [<Layout {...props} />] *)

Record vnode := VNode {
  vn_type : string;                      (* the component, by name *)
  vn_props : list (string * string) }.   (* its props, spread *)

(** ** The document *)

Module Dom.

Record element := Element {
  tagName : string;
  el_id : string }.

(** Elements are held in a store indexed by reference; [body] lists the
    references of the elements that are in the document, in document
    order.  An element has a parent exactly when it is listed there (the
    mounters only ever append to, and remove from, the body).  [el_id] is
    the [id] property: the empty string for an element without id. *)
Record document := Document {
  elements : gmap nat element;
  body : list nat;
  next_node : nat }.

Inductive parent_ref := BodyRef.

(** [node.id] *)
Definition id_of (d : document) (n : nat) : string :=
  match elements d !! n with
  | Some e => el_id e
  | None => ""
  end.

(** [document.getElementById(i)]: the first element of the document, in
    document order, whose id is [i]; [None] stands for [null].  An
    element whose [id] is the empty string has no id, so nothing is found
    under the empty string. *)
Definition getElementById (i : string) (d : document) : option nat :=
  if decide (i = "") then None
  else snd <$> list_find (λ n, id_of d n = i) (body d).

(** [document.createElement(tag)]: a new element, not in the document. *)
Definition createElement (tag : string) (d : document) : nat * document :=
  (next_node d,
   {| elements := <[next_node d := Element tag ""]> (elements d);
      body := body d;
      next_node := S (next_node d) |}).

(** [node.id = i] *)
Definition set_id (n : nat) (i : string) (d : document) : document :=
  {| elements := alter (λ e, Element (tagName e) i) n (elements d);
     body := body d;
     next_node := next_node d |}.

(** [node.parentNode] *)
Definition parentNode (n : nat) (d : document) : option parent_ref :=
  if bool_decide (n ∈ body d) then Some BodyRef else None.

(** [parent.removeChild(node)] *)
Definition removeChild (p : parent_ref) (n : nat) (d : document) : document :=
  {| elements := elements d;
     body := filter (λ m, m ≠ n) (body d);
     next_node := next_node d |}.

(** [document.body.appendChild(node)]: the node becomes the last child of
    the body (leaving its previous position, if it had one). *)
Definition appendChild (n : nat) (d : document) : document :=
  {| elements := elements d;
     body := filter (λ m, m ≠ n) (body d) ++ [n];
     next_node := next_node d |}.

(** The lookup-or-create sequence that both [mount] functions contain:
    [getElementById], and when it finds nothing [createElement('div')],
    the assignment of the id and [appendChild]. *)
Definition find_or_create (i : string) (d : document) : nat * document :=
  match getElementById i d with
  | Some n => (n, d)
  | None =>
      let '(n, d1) := createElement "div" d in
      let d2 := set_id n i d1 in
      (n, appendChild n d2)
  end.

(** The document after a [div] with id [i] was created and appended;
    [find_or_create] is shown below to build it when it finds nothing. *)
Definition created (i : string) (d : document) : document :=
  {| elements := <[next_node d := Element "div" i]> (elements d);
     body := body d ++ [next_node d];
     next_node := S (next_node d) |}.

(** How many elements of the document carry the id [i]. *)
Definition count_id (i : string) (d : document) : nat :=
  length (filter (λ n, id_of d n = i) (body d)).

Definition empty : document :=
  {| elements := ∅; body := []; next_node := 0 |}.

(** A well-formed document: the body lists each element once, only
    elements of the store, the allocator is ahead of the store, and no
    two elements of the document have the same id (any number of them
    may have none). *)
Record wf (d : document) : Prop := Wf {
  wf_nodup : NoDup (body d);
  wf_alloc : ∀ n, n ∈ body d → is_Some (elements d !! n);
  wf_fresh : ∀ n, is_Some (elements d !! n) → n < next_node d;
  wf_ids : ∀ n m, n ∈ body d → m ∈ body d →
    id_of d n = id_of d m → id_of d n ≠ "" → n = m }.

End Dom.

(** ** The rendering backend *)

Module Backend.

(** A live tree: the container it is rendered into and what it shows
    ([None]: a handle that has not rendered anything yet). *)
Record tree := Tree {
  container : nat;
  content : option vnode }.

Inductive call :=
| Create (h : nat) (n : nat)
| Render (h : nat) (v : vnode)
| Dispose (h : nat).

(** [live] holds the handles that were created and not yet disposed;
    [peak] is the largest number of handles that were live at the same
    time so far, and [calls] the backend calls made so far, oldest first
    (both are bookkeeping of the model, the code does not read them). *)
Record renderer := Renderer {
  live : gmap nat tree;
  next_handle : nat;
  peak : nat;
  calls : list call }.

Definition empty : renderer :=
  {| live := ∅; next_handle := 0; peak := 0; calls := [] |}.

(** Obtain a handle bound to a container (React's [createRoot]). *)
Definition create (n : nat) (r : renderer) : nat * renderer :=
  let h := next_handle r in
  let l := <[h := Tree n None]> (live r) in
  (h, {| live := l;
         next_handle := S h;
         peak := Nat.max (peak r) (size l);
         calls := calls r ++ [Create h n] |}).

(** Render into an existing handle, replacing what it showed (React's
    [root.render]). *)
Definition render (h : nat) (v : vnode) (r : renderer) : renderer :=
  {| live := alter (fun t => Tree (container t) (Some v)) h (live r);
     next_handle := next_handle r;
     peak := peak r;
     calls := calls r ++ [Render h v] |}.

(** Dispose a handle (React's [root.unmount], Solid's disposer). *)
Definition dispose (h : nat) (r : renderer) : renderer :=
  {| live := delete h (live r);
     next_handle := next_handle r;
     peak := peak r;
     calls := calls r ++ [Dispose h] |}.

(** Solid's [render(code, element)]: a new handle for the container with
    the tree already rendered; the handle is what the returned disposer
    closes over. *)
Definition render_new (v : vnode) (n : nat) (r : renderer) : nat * renderer :=
  let '(h, r1) := create n r in (h, render h v r1).

Definition wf (r : renderer) : Prop :=
  ∀ h, is_Some (live r !! h) → h < next_handle r.

End Backend.

(** ** The interface of a mounter *)

(** The three exported functions, as calls; [elementId] is optional. *)
Inductive op :=
| Mount (Layout : string) (props : list (string * string)) (elementId : option string)
| Unmount
| Cleanup.

(** The states of the lifecycle: no container and no handle, both, or a
    container without a handle.  A handle without a container is not a
    state of the lifecycle; it is named to make [phase_of] total. *)
Inductive phase := Idle | Mounted | Detached | Unbound.

Definition phase_of (handle container : option nat) : phase :=
  match container, handle with
  | None, None => Idle
  | Some _, Some _ => Mounted
  | Some _, None => Detached
  | None, Some _ => Unbound
  end.

(** Repeated calls of [mount] with one and the same [elementId]. *)
Definition mounts_at (elementId : option string)
    (cs : list (string * list (string * string))) : list op :=
  (λ c, Mount c.1 c.2 elementId) <$> cs.

(** ** The React mounter *)

Module React.

(** [let root = null; let rootElement = null;] and the two collaborators. *)
Record state := State {
  root : option nat;
  rootElement : option nat;
  dom : Dom.document;
  backend : Backend.renderer }.

Definition init (d : Dom.document) : state :=
  {| root := None; rootElement := None; dom := d; backend := Backend.empty |}.

Definition default_elementId : string := "react-root".

(** [!rootElement || rootElement.id !== elementId] *)
Definition stale (s : state) (elementId : string) : bool :=
  match rootElement s with
  | None => true
  | Some n => negb (String.eqb (Dom.id_of (dom s) n) elementId)
  end.

(** The body of the [if] of [mount]: get or create the root element, then
    create a new root for it. *)
Definition acquire (elementId : string) (s : state) : state :=
  let '(n, d) := Dom.find_or_create elementId (dom s) in
  let '(h, b) := Backend.create n (backend s) in
  {| root := Some h; rootElement := Some n; dom := d; backend := b |}.

(** [mount] (reactMount.js, lines 19-39).  [elementId] is [None] when the
    argument is left out; [root.render] on a [root] that is [null] is a
    [TypeError]. *)
Definition mount (Layout : string) (props : list (string * string))
    (elementId : option string) (s : state) : outcome state :=
  let elementId := default default_elementId elementId in
  let s1 := if stale s elementId then acquire elementId s else s in
  match root s1 with
  | None =>
      Threw (TypeError "Cannot read properties of null (reading 'render')") s1
  | Some h =>
      Returned {| root := root s1;
                  rootElement := rootElement s1;
                  dom := dom s1;
                  backend := Backend.render h (VNode Layout props) (backend s1) |}
  end.

(** [unmount] (lines 44-49). *)
Definition unmount (s : state) : outcome state :=
  match root s with
  | Some h =>
      Returned {| root := None;
                  rootElement := rootElement s;
                  dom := dom s;
                  backend := Backend.dispose h (backend s) |}
  | None => Returned s
  end.

(** [cleanup] (lines 54-60). *)
Definition cleanup (s : state) : outcome state :=
  and_then (unmount s) (fun s1 =>
    let d :=
      match rootElement s1 with
      | Some n =>
          match Dom.parentNode n (dom s1) with
          | Some p => Dom.removeChild p n (dom s1)
          | None => dom s1
          end
      | None => dom s1
      end in
    Returned {| root := root s1;
                rootElement := None;
                dom := d;
                backend := backend s1 |}).

Definition step (o : op) (s : state) : outcome state :=
  match o with
  | Mount Layout props elementId => mount Layout props elementId s
  | Unmount => unmount s
  | Cleanup => cleanup s
  end.

(** A sequence of calls; it stops at the first call that throws. *)
Fixpoint run (os : list op) (s : state) : outcome state :=
  match os with
  | [] => Returned s
  | o :: os' => and_then (step o s) (run os')
  end.

Definition phase_of_state (s : state) : phase := phase_of (root s) (rootElement s).

(** The states the module can be in: it is loaded in a well-formed
    document, and then called.  (A call that throws leaves the state it
    found, see [react_mount_throws_unchanged], so it adds no state.) *)
Inductive reachable : state → Prop :=
| reach_init d : Dom.wf d → reachable (init d)
| reach_step s o s' : reachable s → step o s = Returned s' → reachable s'.

(** What holds in every reachable state: the root element is in the
    document, and the root is a live handle for it. *)
Record inv (s : state) : Prop := Inv {
  inv_dom : Dom.wf (dom s);
  inv_backend : Backend.wf (backend s);
  inv_attached : ∀ n, rootElement s = Some n → n ∈ Dom.body (dom s);
  inv_root : ∀ h, root s = Some h →
    ∃ n c, rootElement s = Some n ∧
           Backend.live (backend s) !! h = Some (Backend.Tree n c) }.

End React.

(** ** The Solid mounter *)

Module Solid.

(** [let dispose = null; let rootElement = null;]: [dispose] is the
    disposer returned by the last [render], represented by the handle it
    disposes. *)
Record state := State {
  dispose : option nat;
  rootElement : option nat;
  dom : Dom.document;
  backend : Backend.renderer }.

Definition init (d : Dom.document) : state :=
  {| dispose := None; rootElement := None; dom := d; backend := Backend.empty |}.

Definition default_elementId : string := "solid-root".

(** [if (dispose) { dispose(); }]: the variable keeps the disposer. *)
Definition dispose_previous (s : state) : state :=
  match dispose s with
  | Some h =>
      {| dispose := dispose s;
         rootElement := rootElement s;
         dom := dom s;
         backend := Backend.dispose h (backend s) |}
  | None => s
  end.

(** [!rootElement || rootElement.id !== elementId] *)
Definition stale (s : state) (elementId : string) : bool :=
  match rootElement s with
  | None => true
  | Some n => negb (String.eqb (Dom.id_of (dom s) n) elementId)
  end.

(** The body of the second [if] of [mount]: get or create the root
    element.  The element now held by [rootElement] is returned with the
    state. *)
Definition acquire (elementId : string) (s : state) : nat * state :=
  let '(n, d) := Dom.find_or_create elementId (dom s) in
  (n, {| dispose := dispose s; rootElement := Some n; dom := d; backend := backend s |}).

(** The second [if] of [mount] as a whole: after it, [rootElement] is
    not [null]. *)
Definition root_element_for (elementId : string) (s : state) : nat * state :=
  match rootElement s with
  | Some n => if stale s elementId then acquire elementId s else (n, s)
  | None => acquire elementId s
  end.

(** [mount] (the Solid mounter in the same listing, lines 78-99). *)
Definition mount (Layout : string) (props : list (string * string))
    (elementId : option string) (s : state) : outcome state :=
  let elementId := default default_elementId elementId in
  let s1 := dispose_previous s in
  let '(n, s2) := root_element_for elementId s1 in
  let '(h, b) := Backend.render_new (VNode Layout props) n (backend s2) in
  Returned {| dispose := Some h;
              rootElement := rootElement s2;
              dom := dom s2;
              backend := b |}.

(** [unmount] (lines 104-109). *)
Definition unmount (s : state) : outcome state :=
  match dispose s with
  | Some h =>
      Returned {| dispose := None;
                  rootElement := rootElement s;
                  dom := dom s;
                  backend := Backend.dispose h (backend s) |}
  | None => Returned s
  end.

(** [cleanup] (lines 114-120). *)
Definition cleanup (s : state) : outcome state :=
  and_then (unmount s) (fun s1 =>
    let d :=
      match rootElement s1 with
      | Some n =>
          match Dom.parentNode n (dom s1) with
          | Some p => Dom.removeChild p n (dom s1)
          | None => dom s1
          end
      | None => dom s1
      end in
    Returned {| dispose := dispose s1;
                rootElement := None;
                dom := d;
                backend := backend s1 |}).

Definition step (o : op) (s : state) : outcome state :=
  match o with
  | Mount Layout props elementId => mount Layout props elementId s
  | Unmount => unmount s
  | Cleanup => cleanup s
  end.

(** A sequence of calls; it stops at the first call that throws. *)
Fixpoint run (os : list op) (s : state) : outcome state :=
  match os with
  | [] => Returned s
  | o :: os' => and_then (step o s) (run os')
  end.

Definition phase_of_state (s : state) : phase := phase_of (dispose s) (rootElement s).

(** The states the module can be in: it is loaded in a well-formed
    document, and then called. *)
Inductive reachable : state → Prop :=
| reach_init d : Dom.wf d → reachable (init d)
| reach_step s o s' : reachable s → step o s = Returned s' → reachable s'.

(** What holds in every reachable state: the root element is in the
    document, the only live handle is the one [dispose] disposes, it is
    bound to the root element, and no two handles were ever live
    together. *)
Record inv (s : state) : Prop := Inv {
  inv_dom : Dom.wf (dom s);
  inv_backend : Backend.wf (backend s);
  inv_attached : ∀ n, rootElement s = Some n → n ∈ Dom.body (dom s);
  inv_dispose : ∀ h, dispose s = Some h →
    ∃ n c, rootElement s = Some n ∧
           Backend.live (backend s) = {[ h := Backend.Tree n c ]};
  inv_idle : dispose s = None → Backend.live (backend s) = ∅;
  inv_peak : Backend.peak (backend s) ≤ 1 }.

End Solid.

(** ** Vocabulary of the statements *)

(** Between the documents [d] and [d'] a [div] with id [i] was created
    under the new reference [n] and appended to the body. *)
Definition container_created (i : string) (d d' : Dom.document) (n : nat) : Prop :=
  Dom.elements d !! n = None ∧
  Dom.elements d' !! n = Some (Dom.Element "div" i) ∧
  Dom.body d' = Dom.body d ++ [n].

(** The handle [h] is live and shows [<Layout {...props} />] in the
    element [n]. *)
Definition rendered_into (r : Backend.renderer) (h n : nat)
    (Layout : string) (props : list (string * string)) : Prop :=
  Backend.live r !! h = Some (Backend.Tree n (Some (VNode Layout props))).

(** The call names its [elementId] (the two mounters have different
    defaults). *)
Definition names_elementId (o : op) : Prop :=
  match o with
  | Mount _ _ None => False
  | _ => True
  end.

(** The backend calls of repeated Solid [mount] calls into the element
    [n], starting with the handle [h] held and [next] the next handle to
    be created: each call disposes the handle held, then creates a handle
    and renders into it. *)
Fixpoint remount_calls (h next n : nat)
    (cs : list (string * list (string * string))) : list Backend.call :=
  match cs with
  | [] => []
  | c :: cs' =>
      [Backend.Dispose h; Backend.Create next n; Backend.Render next (VNode c.1 c.2)]
        ++ remount_calls next (S next) n cs'
  end.

(** * Facts about the document *)

Section dom_facts.
Implicit Types (d : Dom.document) (n m : nat) (i : string).

Lemma dom_wf_empty : Dom.wf Dom.empty.
Proof.
  split; simpl.
  - constructor.
  - intros n Hn. inversion Hn.
  - intros n [e He]. rewrite lookup_empty in He. discriminate.
  - intros n m Hn. inversion Hn.
Qed.

Lemma dom_find_Some i d n :
  Dom.getElementById i d = Some n →
  n ∈ Dom.body d ∧ Dom.id_of d n = i ∧ i ≠ "".
Proof.
  unfold Dom.getElementById. intros H.
  destruct (decide (i = "")) as [|Hi]; [done|].
  destruct (list_find _ _) as [[j m]|] eqn:Hf; simplify_eq/=.
  apply list_find_Some in Hf as (Hj & Hid & _).
  split_and!; [|done..]. by eapply list_elem_of_lookup_2.
Qed.

Lemma dom_find_None i d :
  Dom.getElementById i d = None ↔
  i = "" ∨ ∀ n, n ∈ Dom.body d → Dom.id_of d n ≠ i.
Proof.
  unfold Dom.getElementById. destruct (decide (i = "")) as [Hi|Hi].
  - split; auto.
  - rewrite fmap_None, list_find_None, Forall_forall. split; [auto|].
    by intros [?|?].
Qed.

Lemma dom_find_unique d n :
  Dom.wf d → n ∈ Dom.body d → Dom.id_of d n ≠ "" →
  Dom.getElementById (Dom.id_of d n) d = Some n.
Proof.
  intros Hwf Hn Hid.
  destruct (Dom.getElementById (Dom.id_of d n) d) as [m|] eqn:Hf.
  - apply dom_find_Some in Hf as (Hm & Heq & _).
    f_equal. apply (Dom.wf_ids d Hwf); [done..|congruence].
  - apply dom_find_None in Hf as [?|Hf]; [done|]. by destruct (Hf n Hn).
Qed.

Lemma filter_keep_all {A} (P : A → Prop) `{∀ x, Decision (P x)} (l : list A) :
  (∀ x, x ∈ l → P x) → filter P l = l.
Proof.
  induction l as [|a l IH]; intros Hall; [done|].
  rewrite filter_cons_True by (apply Hall; left).
  f_equal. apply IH. intros x Hx. apply Hall. by right.
Qed.

Lemma filter_keep_none {A} (P : A → Prop) `{∀ x, Decision (P x)} (l : list A) :
  (∀ x, x ∈ l → ¬ P x) → filter P l = [].
Proof.
  induction l as [|a l IH]; intros Hall; [done|].
  rewrite filter_cons_False by (apply Hall; left).
  apply IH. intros x Hx. apply Hall. by right.
Qed.

(** Filtering a list without repetition by a property that only [x] has. *)
Lemma filter_only {A} (P : A → Prop) `{∀ x, Decision (P x)} (l : list A) x :
  NoDup l → x ∈ l → P x → (∀ y, y ∈ l → P y → y = x) → filter P l = [x].
Proof.
  induction l as [|a l IH]; intros Hnd Hx HPx Honly.
  - inversion Hx.
  - apply NoDup_cons in Hnd as [Ha Hnd].
    destruct (decide (P a)) as [HPa|HPa].
    + assert (a = x) as -> by (apply Honly; [left|done]).
      rewrite filter_cons_True by done. f_equal.
      apply filter_keep_none. intros y Hy HPy.
      apply Ha. rewrite <- (Honly y); [done|by right|done].
    + rewrite filter_cons_False by done.
      apply IH; [done| |done|].
      * apply elem_of_cons in Hx as [->|Hx]; done.
      * intros y Hy. apply Honly. by right.
Qed.

Lemma dom_count_unique d n :
  Dom.wf d → n ∈ Dom.body d → Dom.id_of d n ≠ "" →
  Dom.count_id (Dom.id_of d n) d = 1.
Proof.
  intros Hwf Hn Hid. unfold Dom.count_id.
  rewrite (filter_only _ _ n); [done|apply Hwf|done|done|].
  intros m Hm Heq. symmetry. apply (Dom.wf_ids d Hwf); congruence.
Qed.

(** No element of the document has the id [i]. *)
Lemma dom_count_zero i d :
  Dom.count_id i d = 0 ↔ ∀ n, n ∈ Dom.body d → Dom.id_of d n ≠ i.
Proof.
  unfold Dom.count_id. rewrite length_zero_iff_nil. split.
  - intros Hnil n Hn Hid.
    by apply (filter_nil_not_elem_of _ _ n Hnil Hid).
  - apply filter_keep_none.
Qed.

Lemma dom_count_zero_find i d :
  Dom.count_id i d = 0 → Dom.getElementById i d = None.
Proof. rewrite dom_count_zero, dom_find_None. auto. Qed.

(** *** Creating the element *)

Lemma dom_next_node_new d :
  Dom.wf d → Dom.elements d !! Dom.next_node d = None ∧ Dom.next_node d ∉ Dom.body d.
Proof.
  intros Hwf.
  assert (Dom.elements d !! Dom.next_node d = None) as Hnone.
  { apply eq_None_not_Some. intros H%(Dom.wf_fresh d Hwf). lia. }
  split; [done|]. intros [e He]%(Dom.wf_alloc d Hwf). congruence.
Qed.

Lemma dom_find_or_create_found i d n :
  Dom.getElementById i d = Some n → Dom.find_or_create i d = (n, d).
Proof. unfold Dom.find_or_create. by intros ->. Qed.

Lemma dom_find_or_create_new i d :
  Dom.wf d → Dom.getElementById i d = None →
  Dom.find_or_create i d = (Dom.next_node d, Dom.created i d).
Proof.
  intros Hwf Hnone. unfold Dom.find_or_create. rewrite Hnone. simpl.
  destruct (dom_next_node_new d Hwf) as [_ Hnew].
  unfold Dom.appendChild, Dom.created. simpl. f_equal. f_equal.
  - by rewrite alter_insert_eq.
  - f_equal. apply filter_keep_all. intros m Hm ->. done.
Qed.

Lemma created_id_of_old i d m :
  Dom.wf d → m ∈ Dom.body d → Dom.id_of (Dom.created i d) m = Dom.id_of d m.
Proof.
  intros Hwf Hm. unfold Dom.id_of, Dom.created. simpl.
  rewrite lookup_insert_ne; [done|].
  intros <-. by destruct (dom_next_node_new d Hwf).
Qed.

Lemma created_id_of_new i d : Dom.id_of (Dom.created i d) (Dom.next_node d) = i.
Proof. unfold Dom.id_of, Dom.created. simpl. by rewrite lookup_insert_eq. Qed.

Lemma created_body i d m :
  m ∈ Dom.body (Dom.created i d) ↔ m ∈ Dom.body d ∨ m = Dom.next_node d.
Proof. simpl. by rewrite elem_of_app, list_elem_of_singleton. Qed.

Lemma created_wf i d :
  Dom.wf d → Dom.getElementById i d = None → Dom.wf (Dom.created i d).
Proof.
  intros Hwf Hnone. destruct (dom_next_node_new d Hwf) as [Hstore Hbody].
  split.
  - simpl. apply NoDup_app. split_and!; [by apply Dom.wf_nodup| |apply NoDup_singleton].
    intros m Hm ->%list_elem_of_singleton. done.
  - intros m [Hm| ->]%created_body; simpl.
    + rewrite lookup_insert_ne by (intros <-; done). by apply Dom.wf_alloc.
    + rewrite lookup_insert_eq. eauto.
  - simpl. intros m Hm. destruct (decide (m = Dom.next_node d)) as [->|Hne]; [lia|].
    rewrite lookup_insert_ne in Hm by done.
    apply (Dom.wf_fresh d Hwf) in Hm. lia.
  - assert (∀ m, m ∈ Dom.body d → i ≠ "" → Dom.id_of d m ≠ i) as Hfree.
    { intros m Hm Hi. apply dom_find_None in Hnone as [?|Hnone]; auto. }
    intros n m [Hn| ->]%created_body [Hm| ->]%created_body.
    + rewrite !created_id_of_old by done. apply (Dom.wf_ids d Hwf n m Hn Hm).
    + rewrite (created_id_of_old i d n), created_id_of_new by done.
      intros Heq Hne. destruct (Hfree n Hn); congruence.
    + rewrite (created_id_of_old i d m), created_id_of_new by done.
      intros Heq Hne. destruct (Hfree m Hm); congruence.
    + done.
Qed.

Lemma dom_find_or_create_wf i d n d' :
  Dom.wf d → Dom.find_or_create i d = (n, d') →
  Dom.wf d' ∧ n ∈ Dom.body d' ∧ Dom.id_of d' n = i.
Proof.
  intros Hwf Hfc.
  destruct (Dom.getElementById i d) as [m|] eqn:Hf.
  - rewrite (dom_find_or_create_found _ _ _ Hf) in Hfc. simplify_eq.
    by apply dom_find_Some in Hf as (? & ? & ?).
  - rewrite dom_find_or_create_new in Hfc by done. simplify_eq.
    split_and!; [by apply created_wf| |apply created_id_of_new].
    apply created_body. by right.
Qed.

(** *** Removing the element *)

Lemma dom_parentNode_attached n d :
  n ∈ Dom.body d → Dom.parentNode n d = Some Dom.BodyRef.
Proof.
  intros Hn. unfold Dom.parentNode.
  destruct (bool_decide_reflect (n ∈ Dom.body d)); [reflexivity|contradiction].
Qed.

Lemma dom_removeChild_gone p n d : n ∉ Dom.body (Dom.removeChild p n d).
Proof. simpl. rewrite list_elem_of_filter. intros [Hne _]. by apply Hne. Qed.

Lemma dom_removeChild_body p n d m :
  m ∈ Dom.body (Dom.removeChild p n d) ↔ m ≠ n ∧ m ∈ Dom.body d.
Proof. simpl. apply (list_elem_of_filter (λ k, k ≠ n)). Qed.

Lemma dom_removeChild_wf p n d : Dom.wf d → Dom.wf (Dom.removeChild p n d).
Proof.
  intros Hwf. split.
  - simpl. apply NoDup_filter, Hwf.
  - intros m [_ Hm]%dom_removeChild_body. by apply (Dom.wf_alloc d).
  - apply Hwf.
  - intros m1 m2 [_ H1]%dom_removeChild_body [_ H2]%dom_removeChild_body.
    apply (Dom.wf_ids d Hwf m1 m2 H1 H2).
Qed.

(** Once the element is removed, its id is free again. *)
Lemma dom_removeChild_frees_id p n d :
  Dom.wf d → n ∈ Dom.body d →
  Dom.getElementById (Dom.id_of d n) (Dom.removeChild p n d) = None.
Proof.
  intros Hwf Hn. apply dom_find_None.
  destruct (decide (Dom.id_of d n = "")) as [|Hid]; [by left|right].
  intros m [Hne Hm]%dom_removeChild_body Heq.
  apply Hne. symmetry. apply (Dom.wf_ids d Hwf); done.
Qed.

End dom_facts.

(** * Facts about the rendering backend *)

Section backend_facts.
Implicit Types (r : Backend.renderer) (h n : nat) (v : vnode).

Lemma backend_wf_empty : Backend.wf Backend.empty.
Proof. intros h [t Ht]. simpl in Ht. rewrite lookup_empty in Ht. discriminate. Qed.

(** Creating a handle and rendering into it at once. *)
Lemma backend_render_new_eq v n r :
  Backend.render_new v n r =
  (Backend.next_handle r,
   {| Backend.live := <[Backend.next_handle r := Backend.Tree n (Some v)]> (Backend.live r);
      Backend.next_handle := S (Backend.next_handle r);
      Backend.peak := Nat.max (Backend.peak r)
        (size (<[Backend.next_handle r := Backend.Tree n None]> (Backend.live r)));
      Backend.calls := Backend.calls r ++
        [Backend.Create (Backend.next_handle r) n; Backend.Render (Backend.next_handle r) v] |}).
Proof.
  unfold Backend.render_new, Backend.create, Backend.render. simpl.
  by rewrite alter_insert_eq, <- app_assoc.
Qed.

Lemma backend_wf_insert_next r t :
  Backend.wf r →
  ∀ h, is_Some (<[Backend.next_handle r := t]> (Backend.live r) !! h) →
       h < S (Backend.next_handle r).
Proof.
  intros Hwf h Hh. destruct (decide (h = Backend.next_handle r)) as [->|Hne]; [lia|].
  rewrite lookup_insert_ne in Hh by done. apply Hwf in Hh. lia.
Qed.

Lemma backend_wf_render_new v n r :
  Backend.wf r → Backend.wf (Backend.render_new v n r).2.
Proof.
  intros Hwf. rewrite backend_render_new_eq. unfold Backend.wf. simpl.
  by apply backend_wf_insert_next.
Qed.

Lemma backend_wf_render h v r : Backend.wf r → Backend.wf (Backend.render h v r).
Proof.
  intros Hwf h' Hh'. simpl in *. apply Hwf.
  destruct (decide (h = h')) as [->|Hne].
  - rewrite lookup_alter_eq in Hh'. by apply fmap_is_Some in Hh'.
  - by rewrite lookup_alter_ne in Hh'.
Qed.

Lemma backend_wf_dispose h r : Backend.wf r → Backend.wf (Backend.dispose h r).
Proof.
  intros Hwf h' [t Ht]. simpl in *. apply Hwf.
  apply lookup_delete_Some in Ht as [_ Ht]. eauto.
Qed.

End backend_facts.

(** * The React mounter *)

Section react_facts.
Implicit Types (s : React.state) (eid : option string).

(** [render_new] is used through [backend_render_new_eq]. *)
Local Opaque Backend.render_new.

(** [mount] when the [if] is entered: the element is looked up or
    created, a new root is created for it and rendered into. *)
Lemma react_mount_stale L p eid s n d' :
  React.stale s (default React.default_elementId eid) = true →
  Dom.find_or_create (default React.default_elementId eid) (React.dom s) = (n, d') →
  React.mount L p eid s =
  Returned {| React.root := Some (Backend.next_handle (React.backend s));
              React.rootElement := Some n;
              React.dom := d';
              React.backend := (Backend.render_new (VNode L p) n (React.backend s)).2 |}.
Proof.
  intros Hstale Hfc. unfold React.mount, React.acquire.
  rewrite Hstale, Hfc. reflexivity.
Qed.

(** [mount] when the [if] is skipped and a root is held: the root is
    rendered into, nothing else changes. *)
Lemma react_mount_reuse L p eid s h :
  React.stale s (default React.default_elementId eid) = false →
  React.root s = Some h →
  React.mount L p eid s =
  Returned {| React.root := Some h;
              React.rootElement := React.rootElement s;
              React.dom := React.dom s;
              React.backend := Backend.render h (VNode L p) (React.backend s) |}.
Proof.
  intros Hstale Hroot. unfold React.mount. rewrite Hstale, Hroot. reflexivity.
Qed.

(** [mount] when the [if] is skipped and no root is held: [root.render]
    is a call on [null]. *)
Lemma react_mount_null L p eid s :
  React.stale s (default React.default_elementId eid) = false →
  React.root s = None →
  React.mount L p eid s =
  Threw (TypeError "Cannot read properties of null (reading 'render')") s.
Proof.
  intros Hstale Hroot. unfold React.mount. rewrite Hstale, Hroot. reflexivity.
Qed.

(** A [mount] that throws has changed nothing. *)
Lemma react_mount_throws_unchanged L p eid s e s' :
  React.mount L p eid s = Threw e s' → s' = s.
Proof.
  unfold React.mount, React.acquire.
  destruct (React.stale s _).
  - destruct (Dom.find_or_create _ _) as [n d].
    destruct (Backend.create _ _) as [h b]. done.
  - destruct (React.root s); by intros [= _ <-].
Qed.

Lemma react_stale_false s e :
  React.stale s e = false ↔
  ∃ n, React.rootElement s = Some n ∧ Dom.id_of (React.dom s) n = e.
Proof.
  unfold React.stale. destruct (React.rootElement s) as [n|].
  - rewrite negb_false_iff, String.eqb_eq. split.
    + intros Hid. by exists n.
    + by intros (m & [= <-] & Hid).
  - split; [done|]. by intros (m & Hm & _).
Qed.

Lemma react_inv_init d : Dom.wf d → React.inv (React.init d).
Proof.
  intros Hwf. split; simpl; [done|apply backend_wf_empty|done..].
Qed.

Lemma react_inv_mount L p eid s s' :
  React.inv s → React.mount L p eid s = Returned s' → React.inv s'.
Proof.
  intros Hinv Hm.
  destruct (React.stale s (default React.default_elementId eid)) eqn:Hstale.
  - destruct (Dom.find_or_create (default React.default_elementId eid) (React.dom s))
      as [n d'] eqn:Hfc.
    rewrite (react_mount_stale _ _ _ _ _ _ Hstale Hfc) in Hm. simplify_eq.
    destruct (dom_find_or_create_wf _ _ _ _ (React.inv_dom s Hinv) Hfc) as (Hwf & Hn & _).
    split; cbn [React.root React.rootElement React.dom React.backend].
    + done.
    + apply backend_wf_render_new, Hinv.
    + by intros ? [= <-].
    + intros ? [= <-]. exists n, (Some (VNode L p)). split; [done|].
      rewrite backend_render_new_eq. simpl. apply lookup_insert_eq.
  - destruct (React.root s) as [h|] eqn:Hroot.
    + rewrite (react_mount_reuse _ _ _ _ _ Hstale Hroot) in Hm. simplify_eq.
      destruct (React.inv_root s Hinv h Hroot) as (n & c & Hre & Hlive).
      split; simpl.
      * apply Hinv.
      * apply backend_wf_render, Hinv.
      * apply Hinv.
      * intros ? [= <-]. exists n, (Some (VNode L p)). split; [done|].
        by rewrite lookup_alter_eq, Hlive.
    + by rewrite (react_mount_null _ _ _ _ Hstale Hroot) in Hm.
Qed.

Lemma react_inv_unmount s s' :
  React.inv s → React.unmount s = Returned s' → React.inv s'.
Proof.
  intros Hinv Hu. unfold React.unmount in Hu.
  destruct (React.root s) as [h|] eqn:Hroot; simplify_eq; [|done].
  split; simpl; [apply Hinv|apply backend_wf_dispose, Hinv|apply Hinv|done].
Qed.

(** [unmount] always returns, with the root cleared. *)
Lemma react_unmount_returns s :
  ∃ s', React.unmount s = Returned s' ∧ React.root s' = None ∧
        React.rootElement s' = React.rootElement s ∧ React.dom s' = React.dom s.
Proof.
  unfold React.unmount. destruct (React.root s) eqn:Hroot; eauto.
Qed.

Lemma react_inv_cleanup s s' :
  React.inv s → React.cleanup s = Returned s' → React.inv s'.
Proof.
  intros Hinv Hc. unfold React.cleanup in Hc.
  destruct (react_unmount_returns s) as (s1 & Hu & Hroot & Hre & Hdom).
  pose proof (react_inv_unmount _ _ Hinv Hu) as Hinv1.
  rewrite Hu in Hc. simpl in Hc. simplify_eq.
  split; simpl.
  - destruct (React.rootElement s1) as [n|]; [|apply Hinv1].
    destruct (Dom.parentNode n (React.dom s1)); [|apply Hinv1].
    apply dom_removeChild_wf, Hinv1.
  - apply Hinv1.
  - done.
  - rewrite Hroot. done.
Qed.

Lemma react_inv_step o s s' :
  React.inv s → React.step o s = Returned s' → React.inv s'.
Proof.
  destruct o; simpl; eauto using react_inv_mount, react_inv_unmount, react_inv_cleanup.
Qed.

Theorem react_reachable_inv s : React.reachable s → React.inv s.
Proof.
  induction 1; eauto using react_inv_init, react_inv_step.
Qed.

(** After a [mount] that returned, a root is held for the root element,
    which is in the document and has the requested id. *)
Lemma react_mount_post L p eid s s1 :
  React.inv s → React.mount L p eid s = Returned s1 →
  React.stale s1 (default React.default_elementId eid) = false ∧
  ∃ n h, React.rootElement s1 = Some n ∧ React.root s1 = Some h ∧
         n ∈ Dom.body (React.dom s1) ∧
         Dom.id_of (React.dom s1) n = default React.default_elementId eid ∧
         rendered_into (React.backend s1) h n L p.
Proof.
  intros Hinv Hm. pose proof (react_inv_mount _ _ _ _ _ Hinv Hm) as Hinv1.
  assert (∃ n h, React.rootElement s1 = Some n ∧ React.root s1 = Some h ∧
                 Dom.id_of (React.dom s1) n = default React.default_elementId eid ∧
                 rendered_into (React.backend s1) h n L p) as (n & h & Hre & Hroot & Hid & Hr).
  { destruct (React.stale s (default React.default_elementId eid)) eqn:Hstale.
    - destruct (Dom.find_or_create (default React.default_elementId eid) (React.dom s))
        as [n d'] eqn:Hfc.
      rewrite (react_mount_stale _ _ _ _ _ _ Hstale Hfc) in Hm. simplify_eq.
      destruct (dom_find_or_create_wf _ _ _ _ (React.inv_dom s Hinv) Hfc) as (_ & _ & Hid).
      eexists _, _. split_and!; [done..|].
      unfold rendered_into. cbn [React.backend].
      rewrite backend_render_new_eq. simpl. apply lookup_insert_eq.
    - destruct (React.root s) as [h|] eqn:Hroot.
      + rewrite (react_mount_reuse _ _ _ _ _ Hstale Hroot) in Hm. simplify_eq.
        apply react_stale_false in Hstale as (n & Hre & Hid).
        destruct (React.inv_root s Hinv h Hroot) as (n' & c & Hre' & Hlive).
        rewrite Hre in Hre'. simplify_eq.
        eexists _, _. split_and!; [done..|].
        unfold rendered_into. simpl. by rewrite lookup_alter_eq, Hlive.
      + by rewrite (react_mount_null _ _ _ _ Hstale Hroot) in Hm. }
  pose proof (React.inv_attached s1 Hinv1 n Hre) as Hn.
  split.
  - apply react_stale_false. eauto.
  - exists n, h. split_and!; done.
Qed.

(** No element of the document has the requested id: then the root
    element does not have it either, and the lookup finds nothing. *)
Lemma react_no_id_stale s e :
  React.inv s → Dom.count_id e (React.dom s) = 0 →
  React.stale s e = true ∧ Dom.getElementById e (React.dom s) = None.
Proof.
  intros Hinv Hzero. split; [|by apply dom_count_zero_find].
  destruct (React.stale s e) eqn:Hstale; [done|].
  apply react_stale_false in Hstale as (n & Hre & Hid).
  rewrite dom_count_zero in Hzero.
  destruct (Hzero n (React.inv_attached s Hinv n Hre) Hid).
Qed.

(** [mount] when the [if] is entered and the lookup finds nothing: the
    element is created. *)
Lemma react_mount_creates L p eid s :
  Dom.wf (React.dom s) →
  React.stale s (default React.default_elementId eid) = true →
  Dom.getElementById (default React.default_elementId eid) (React.dom s) = None →
  React.mount L p eid s =
  Returned {| React.root := Some (Backend.next_handle (React.backend s));
              React.rootElement := Some (Dom.next_node (React.dom s));
              React.dom := Dom.created (default React.default_elementId eid) (React.dom s);
              React.backend := (Backend.render_new (VNode L p)
                                  (Dom.next_node (React.dom s)) (React.backend s)).2 |}.
Proof.
  intros Hwf Hstale Hnone. apply react_mount_stale; [done|].
  by apply dom_find_or_create_new.
Qed.

(** [mount] with the id of the root element, while a root is held:
    only what the root shows changes. *)
Lemma react_mount_same_id L p eid s h :
  React.stale s (default React.default_elementId eid) = false →
  React.root s = Some h →
  ∃ s', React.mount L p eid s = Returned s' ∧
        React.dom s' = React.dom s ∧
        React.rootElement s' = React.rootElement s ∧
        React.root s' = React.root s ∧
        dom (Backend.live (React.backend s')) = dom (Backend.live (React.backend s)) ∧
        Backend.peak (React.backend s') = Backend.peak (React.backend s).
Proof.
  intros Hstale Hroot. rewrite (react_mount_reuse _ _ _ _ _ Hstale Hroot).
  eexists. split; [done|]. simpl. split_and!; try done.
  apply dom_alter_L.
Qed.

(** [mount] with another id while a root is held: the root that was held
    stays live, next to the new one. *)
Lemma react_mount_switch_leaks L p eid s h :
  React.inv s → React.root s = Some h →
  React.stale s (default React.default_elementId eid) = true →
  ∃ s' h', React.mount L p eid s = Returned s' ∧ React.root s' = Some h' ∧ h' ≠ h ∧
           is_Some (Backend.live (React.backend s') !! h) ∧
           is_Some (Backend.live (React.backend s') !! h').
Proof.
  intros Hinv Hroot Hstale.
  destruct (Dom.find_or_create (default React.default_elementId eid) (React.dom s))
    as [n d'] eqn:Hfc.
  rewrite (react_mount_stale _ _ _ _ _ _ Hstale Hfc).
  destruct (React.inv_root s Hinv h Hroot) as (m & c & _ & Hlive).
  assert (Backend.next_handle (React.backend s) ≠ h) as Hne.
  { intros Heq. pose proof (React.inv_backend s Hinv h) as Hlt.
    rewrite Hlive in Hlt. specialize (Hlt ltac:(eauto)). lia. }
  eexists _, _. split; [done|]. cbn [React.root React.backend].
  rewrite backend_render_new_eq. simpl. split_and!; [done|done| |].
  - rewrite lookup_insert_ne by done. rewrite Hlive. eauto.
  - rewrite lookup_insert_eq. eauto.
Qed.

End react_facts.

(** * The Solid mounter *)

Section solid_facts.
Implicit Types (s : Solid.state) (eid : option string).

Local Opaque Backend.render_new.

Lemma solid_stale_false s e :
  Solid.stale s e = false ↔
  ∃ n, Solid.rootElement s = Some n ∧ Dom.id_of (Solid.dom s) n = e.
Proof.
  unfold Solid.stale. destruct (Solid.rootElement s) as [n|].
  - rewrite negb_false_iff, String.eqb_eq. split.
    + intros Hid. by exists n.
    + by intros (m & [= <-] & Hid).
  - split; [done|]. by intros (m & Hm & _).
Qed.

(** The first [if] of [mount] only touches the backend. *)
Lemma solid_dispose_previous_frame s :
  Solid.dispose (Solid.dispose_previous s) = Solid.dispose s ∧
  Solid.rootElement (Solid.dispose_previous s) = Solid.rootElement s ∧
  Solid.dom (Solid.dispose_previous s) = Solid.dom s.
Proof.
  unfold Solid.dispose_previous. destruct (Solid.dispose s) eqn:Hd; auto.
Qed.

(** The second [if] of [mount]: either the element held is kept, or the
    element is looked up or created; the backend is not involved. *)
Lemma solid_root_element_for_spec e s n s2 :
  Solid.root_element_for e s = (n, s2) →
  Solid.rootElement s2 = Some n ∧
  Solid.backend s2 = Solid.backend s ∧
  Solid.dispose s2 = Solid.dispose s ∧
  ((Solid.stale s e = false ∧ s2 = s) ∨
   (Solid.stale s e = true ∧ Dom.find_or_create e (Solid.dom s) = (n, Solid.dom s2))).
Proof.
  unfold Solid.root_element_for, Solid.acquire. intros Hr.
  destruct (Solid.stale s e) eqn:Hstale.
  - assert (Dom.find_or_create e (Solid.dom s) = (n, Solid.dom s2) ∧
            Solid.rootElement s2 = Some n ∧ Solid.backend s2 = Solid.backend s ∧
            Solid.dispose s2 = Solid.dispose s) as (? & ? & ? & ?).
    { destruct (Dom.find_or_create e (Solid.dom s)) as [m d'].
      destruct (Solid.rootElement s); by simplify_eq. }
    split_and!; auto.
  - apply solid_stale_false in Hstale as Hn. destruct Hn as (m & Hm & _).
    rewrite Hm in Hr. simplify_eq. split_and!; auto.
Qed.

(** [mount] in one equation: dispose, settle the root element, render. *)
Lemma solid_mount_eq L p eid s n s2 :
  Solid.root_element_for (default Solid.default_elementId eid)
    (Solid.dispose_previous s) = (n, s2) →
  Solid.mount L p eid s =
  Returned {| Solid.dispose := Some (Backend.next_handle (Solid.backend s2));
              Solid.rootElement := Some n;
              Solid.dom := Solid.dom s2;
              Solid.backend := (Backend.render_new (VNode L p) n (Solid.backend s2)).2 |}.
Proof.
  intros Hr. unfold Solid.mount. rewrite Hr.
  destruct (solid_root_element_for_spec _ _ _ _ Hr) as (-> & _).
  rewrite backend_render_new_eq. reflexivity.
Qed.

(** [mount] always returns. *)
Lemma solid_mount_returns L p eid s : ∃ s', Solid.mount L p eid s = Returned s'.
Proof.
  destruct (Solid.root_element_for (default Solid.default_elementId eid)
    (Solid.dispose_previous s)) as [n s2] eqn:Hr.
  rewrite (solid_mount_eq _ _ _ _ _ _ Hr). eauto.
Qed.

Lemma solid_inv_init d : Dom.wf d → Solid.inv (Solid.init d).
Proof.
  intros Hwf. split; simpl; [done|apply backend_wf_empty|done..|lia].
Qed.

(** After the first [if] of [mount] no handle is live. *)
Lemma solid_dispose_previous_live s :
  Solid.inv s → Backend.live (Solid.backend (Solid.dispose_previous s)) = ∅.
Proof.
  intros Hinv. unfold Solid.dispose_previous.
  destruct (Solid.dispose s) as [h|] eqn:Hd.
  - destruct (Solid.inv_dispose s Hinv h Hd) as (n & c & _ & Hlive).
    simpl. rewrite Hlive. apply delete_singleton_eq.
  - by apply Solid.inv_idle.
Qed.

Lemma solid_dispose_previous_wf s :
  Solid.inv s → Backend.wf (Solid.backend (Solid.dispose_previous s)).
Proof.
  intros Hinv. unfold Solid.dispose_previous.
  destruct (Solid.dispose s); [apply backend_wf_dispose|]; apply Hinv.
Qed.

Lemma solid_dispose_previous_peak s :
  Backend.peak (Solid.backend (Solid.dispose_previous s)) = Backend.peak (Solid.backend s).
Proof. unfold Solid.dispose_previous. by destruct (Solid.dispose s). Qed.

(** The root element settled by the second [if] is in a well-formed
    document and carries the requested id. *)
Lemma solid_root_element_for_wf e s n s2 :
  Dom.wf (Solid.dom s) →
  (∀ m, Solid.rootElement s = Some m → m ∈ Dom.body (Solid.dom s)) →
  Solid.root_element_for e s = (n, s2) →
  Dom.wf (Solid.dom s2) ∧ n ∈ Dom.body (Solid.dom s2) ∧ Dom.id_of (Solid.dom s2) n = e.
Proof.
  intros Hwf Hatt Hr.
  destruct (solid_root_element_for_spec _ _ _ _ Hr) as (Hre & _ & _ & [[Hst ->]|[Hst Hfc]]).
  - apply solid_stale_false in Hst as (m & Hm & Hid).
    rewrite Hre in Hm. simplify_eq. auto.
  - by apply (dom_find_or_create_wf e (Solid.dom s)).
Qed.

Lemma solid_inv_mount L p eid s s' :
  Solid.inv s → Solid.mount L p eid s = Returned s' → Solid.inv s'.
Proof.
  intros Hinv Hm.
  destruct (Solid.root_element_for (default Solid.default_elementId eid)
    (Solid.dispose_previous s)) as [n s2] eqn:Hr.
  rewrite (solid_mount_eq _ _ _ _ _ _ Hr) in Hm. simplify_eq.
  destruct (solid_dispose_previous_frame s) as (_ & Hre1 & Hdom1).
  destruct (solid_root_element_for_spec _ _ _ _ Hr) as (_ & Hb & _ & _).
  destruct (solid_root_element_for_wf _ _ _ _
    ltac:(rewrite Hdom1; apply Hinv)
    ltac:(rewrite Hre1, Hdom1; apply Hinv) Hr) as (Hwf & Hn & _).
  pose proof (solid_dispose_previous_live s Hinv) as Hlive.
  split; cbn [Solid.dispose Solid.rootElement Solid.dom Solid.backend].
  - done.
  - rewrite Hb. apply backend_wf_render_new, solid_dispose_previous_wf, Hinv.
  - by intros ? [= <-].
  - intros ? [= <-]. exists n, (Some (VNode L p)). split; [done|].
    rewrite backend_render_new_eq, Hb, Hlive. simpl. apply insert_empty.
  - done.
  - rewrite backend_render_new_eq, Hb, Hlive, solid_dispose_previous_peak. simpl.
    rewrite insert_empty, map_size_singleton. pose proof (Solid.inv_peak s Hinv). lia.
Qed.

(** [unmount] always returns, with the disposer cleared. *)
Lemma solid_unmount_returns s :
  ∃ s', Solid.unmount s = Returned s' ∧ Solid.dispose s' = None ∧
        Solid.rootElement s' = Solid.rootElement s ∧ Solid.dom s' = Solid.dom s.
Proof.
  unfold Solid.unmount. destruct (Solid.dispose s) eqn:Hd; eauto.
Qed.

Lemma solid_inv_unmount s s' :
  Solid.inv s → Solid.unmount s = Returned s' → Solid.inv s'.
Proof.
  intros Hinv Hu. unfold Solid.unmount in Hu.
  destruct (Solid.dispose s) as [h|] eqn:Hd; simplify_eq; [|done].
  destruct (Solid.inv_dispose s Hinv h Hd) as (n & c & _ & Hlive).
  split; simpl; [apply Hinv|apply backend_wf_dispose, Hinv|apply Hinv|done| |apply Hinv].
  intros _. rewrite Hlive. apply delete_singleton_eq.
Qed.

Lemma solid_inv_cleanup s s' :
  Solid.inv s → Solid.cleanup s = Returned s' → Solid.inv s'.
Proof.
  intros Hinv Hc. unfold Solid.cleanup in Hc.
  destruct (solid_unmount_returns s) as (s1 & Hu & Hd & Hre & Hdom).
  pose proof (solid_inv_unmount _ _ Hinv Hu) as Hinv1.
  rewrite Hu in Hc. simpl in Hc. simplify_eq.
  split; simpl.
  - destruct (Solid.rootElement s1) as [n|]; [|apply Hinv1].
    destruct (Dom.parentNode n (Solid.dom s1)); [|apply Hinv1].
    apply dom_removeChild_wf, Hinv1.
  - apply Hinv1.
  - done.
  - rewrite Hd. done.
  - apply Hinv1.
  - apply Hinv1.
Qed.

Lemma solid_inv_step o s s' :
  Solid.inv s → Solid.step o s = Returned s' → Solid.inv s'.
Proof.
  destruct o; simpl; eauto using solid_inv_mount, solid_inv_unmount, solid_inv_cleanup.
Qed.

Theorem solid_reachable_inv s : Solid.reachable s → Solid.inv s.
Proof.
  induction 1; eauto using solid_inv_init, solid_inv_step.
Qed.

(** After [mount], exactly one tree is live: the one just rendered, in
    the root element, which is in the document and has the requested
    id. *)
Lemma solid_mount_post L p eid s s1 :
  Solid.inv s → Solid.mount L p eid s = Returned s1 →
  Solid.stale s1 (default Solid.default_elementId eid) = false ∧
  ∃ n h, Solid.rootElement s1 = Some n ∧ Solid.dispose s1 = Some h ∧
         n ∈ Dom.body (Solid.dom s1) ∧
         Dom.id_of (Solid.dom s1) n = default Solid.default_elementId eid ∧
         Backend.live (Solid.backend s1) = {[ h := Backend.Tree n (Some (VNode L p)) ]}.
Proof.
  intros Hinv Hm.
  destruct (Solid.root_element_for (default Solid.default_elementId eid)
    (Solid.dispose_previous s)) as [n s2] eqn:Hr.
  rewrite (solid_mount_eq _ _ _ _ _ _ Hr) in Hm. simplify_eq.
  destruct (solid_dispose_previous_frame s) as (_ & Hre1 & Hdom1).
  destruct (solid_root_element_for_spec _ _ _ _ Hr) as (_ & Hb & _ & _).
  destruct (solid_root_element_for_wf _ _ _ _
    ltac:(rewrite Hdom1; apply Hinv)
    ltac:(rewrite Hre1, Hdom1; apply Hinv) Hr) as (Hwf & Hn & Hid).
  pose proof (solid_dispose_previous_live s Hinv) as Hlive.
  split.
  - apply solid_stale_false. exists n. by cbn.
  - exists n, (Backend.next_handle (Solid.backend s2)).
    cbn [Solid.dispose Solid.rootElement Solid.dom Solid.backend].
    split_and!; try done.
    rewrite backend_render_new_eq, Hb, Hlive. simpl. apply insert_empty.
Qed.

(** No element of the document has the requested id: then the root
    element does not have it either, and the lookup finds nothing. *)
Lemma solid_no_id_stale s e :
  Solid.inv s → Dom.count_id e (Solid.dom s) = 0 →
  Solid.stale s e = true ∧ Dom.getElementById e (Solid.dom s) = None.
Proof.
  intros Hinv Hzero. split; [|by apply dom_count_zero_find].
  destruct (Solid.stale s e) eqn:Hstale; [done|].
  apply solid_stale_false in Hstale as (n & Hre & Hid).
  rewrite dom_count_zero in Hzero.
  destruct (Hzero n (Solid.inv_attached s Hinv n Hre) Hid).
Qed.

(** [mount] when the second [if] is entered and the lookup finds
    nothing: the element is created. *)
Lemma solid_mount_creates L p eid s :
  Dom.wf (Solid.dom s) →
  Solid.stale s (default Solid.default_elementId eid) = true →
  Dom.getElementById (default Solid.default_elementId eid) (Solid.dom s) = None →
  ∃ s', Solid.mount L p eid s = Returned s' ∧
        Solid.rootElement s' = Some (Dom.next_node (Solid.dom s)) ∧
        Solid.dom s' = Dom.created (default Solid.default_elementId eid) (Solid.dom s).
Proof.
  intros Hwf Hstale Hnone.
  destruct (Solid.root_element_for (default Solid.default_elementId eid)
    (Solid.dispose_previous s)) as [n s2] eqn:Hr.
  rewrite (solid_mount_eq _ _ _ _ _ _ Hr).
  destruct (solid_dispose_previous_frame s) as (_ & Hre1 & Hdom1).
  destruct (solid_root_element_for_spec _ _ _ _ Hr) as (_ & _ & _ & [[Hst ->]|[Hst Hfc]]).
  - unfold Solid.stale in *. rewrite Hre1, Hdom1 in Hst. congruence.
  - rewrite Hdom1 in Hfc.
    rewrite dom_find_or_create_new in Hfc by done.
    simplify_eq. eexists. split; [done|]. cbn. split; congruence.
Qed.

(** [mount] with the id of the root element: the document and the root
    element stay as they are. *)
Lemma solid_mount_same_id L p eid s :
  Solid.stale s (default Solid.default_elementId eid) = false →
  ∃ s', Solid.mount L p eid s = Returned s' ∧
        Solid.dom s' = Solid.dom s ∧
        Solid.rootElement s' = Solid.rootElement s.
Proof.
  intros Hstale.
  destruct (Solid.root_element_for (default Solid.default_elementId eid)
    (Solid.dispose_previous s)) as [n s2] eqn:Hr.
  rewrite (solid_mount_eq _ _ _ _ _ _ Hr).
  destruct (solid_dispose_previous_frame s) as (_ & Hre1 & Hdom1).
  destruct (solid_root_element_for_spec _ _ _ _ Hr) as (Hre & _ & _ & [[Hst ->]|[Hst Hfc]]).
  - eexists. split; [done|]. cbn. split; congruence.
  - unfold Solid.stale in *. rewrite Hre1, Hdom1 in Hst. congruence.
Qed.

(** The backend calls of one [mount]: the disposer held, if any, is
    called first; then one handle is created and rendered into. *)
Lemma solid_mount_calls L p eid s s' :
  Solid.mount L p eid s = Returned s' →
  ∃ n h', Solid.dispose s' = Some h' ∧ Solid.rootElement s' = Some n ∧
    Backend.calls (Solid.backend s') =
      Backend.calls (Solid.backend s) ++
      match Solid.dispose s with
      | Some h => [Backend.Dispose h]
      | None => []
      end ++
      [Backend.Create h' n; Backend.Render h' (VNode L p)].
Proof.
  intros Hm.
  destruct (Solid.root_element_for (default Solid.default_elementId eid)
    (Solid.dispose_previous s)) as [n s2] eqn:Hr.
  rewrite (solid_mount_eq _ _ _ _ _ _ Hr) in Hm. simplify_eq.
  destruct (solid_root_element_for_spec _ _ _ _ Hr) as (_ & Hb & _ & _).
  eexists _, _. cbn [Solid.dispose Solid.rootElement Solid.dom Solid.backend].
  split_and!; [done..|].
  rewrite backend_render_new_eq, Hb. simpl.
  unfold Solid.dispose_previous. destruct (Solid.dispose s); simpl.
  - by rewrite <- app_assoc.
  - done.
Qed.

End solid_facts.

(** * The lifecycle properties *)

Section lifecycle.

Local Opaque Backend.render_new.

(** In the Detached state the React [mount] with the id of the root
    element throws: the [if] is skipped and [root] is [null]. *)
Lemma react_mount_detached_throws L p eid (s : React.state) n :
  React.root s = None → React.rootElement s = Some n →
  Dom.id_of (React.dom s) n = default React.default_elementId eid →
  React.mount L p eid s =
  Threw (TypeError "Cannot read properties of null (reading 'render')") s.
Proof.
  intros Hroot Hre Hid. apply react_mount_null; [|done].
  apply react_stale_false. eauto.
Qed.

(** The Solid handle of a [mount] is a new one. *)
Lemma solid_mount_handle_new L p eid (s s' : Solid.state) :
  Solid.mount L p eid s = Returned s' →
  Solid.dispose s' = Some (Backend.next_handle (Solid.backend s)).
Proof.
  intros Hm.
  destruct (Solid.root_element_for (default Solid.default_elementId eid)
    (Solid.dispose_previous s)) as [n s2] eqn:Hr.
  rewrite (solid_mount_eq _ _ _ _ _ _ Hr) in Hm. simplify_eq.
  destruct (solid_root_element_for_spec _ _ _ _ Hr) as (_ & -> & _ & _).
  cbn. unfold Solid.dispose_previous. by destruct (Solid.dispose s).
Qed.

(** [cleanup] while a root element is held and in the document. *)
Lemma react_cleanup_attached (s : React.state) n :
  React.rootElement s = Some n → n ∈ Dom.body (React.dom s) →
  ∃ s', React.cleanup s = Returned s' ∧ React.root s' = None ∧
        React.rootElement s' = None ∧
        React.dom s' = Dom.removeChild Dom.BodyRef n (React.dom s).
Proof.
  intros Hre Hn. unfold React.cleanup.
  destruct (react_unmount_returns s) as (s1 & -> & Hroot & Hre1 & Hdom1). simpl.
  rewrite Hre1, Hre, Hdom1, (dom_parentNode_attached _ _ Hn), Hroot. eauto.
Qed.

Lemma solid_cleanup_attached (s : Solid.state) n :
  Solid.rootElement s = Some n → n ∈ Dom.body (Solid.dom s) →
  ∃ s', Solid.cleanup s = Returned s' ∧ Solid.dispose s' = None ∧
        Solid.rootElement s' = None ∧
        Solid.dom s' = Dom.removeChild Dom.BodyRef n (Solid.dom s).
Proof.
  intros Hre Hn. unfold Solid.cleanup.
  destruct (solid_unmount_returns s) as (s1 & -> & Hd & Hre1 & Hdom1). simpl.
  rewrite Hre1, Hre, Hdom1, (dom_parentNode_attached _ _ Hn), Hd. eauto.
Qed.

(** In the Solid variant no tree is left after [cleanup]. *)
Lemma solid_cleanup_no_tree (s s' : Solid.state) :
  Solid.reachable s → Solid.cleanup s = Returned s' →
  Backend.live (Solid.backend s') = ∅.
Proof.
  intros Hreach%solid_reachable_inv Hc.
  pose proof (solid_inv_cleanup _ _ Hreach Hc) as Hinv'.
  apply Solid.inv_idle; [done|].
  unfold Solid.cleanup in Hc.
  destruct (solid_unmount_returns s) as (s1 & Hu & Hd & _). rewrite Hu in Hc.
  simpl in Hc. by simplify_eq.
Qed.

(** Repeated [mount] calls with the id of the root element, React. *)
Lemma react_mounts_same_id eid cs (s : React.state) h :
  React.stale s (default React.default_elementId eid) = false →
  React.root s = Some h →
  ∃ s', React.run (mounts_at eid cs) s = Returned s' ∧
        React.dom s' = React.dom s ∧
        React.rootElement s' = React.rootElement s ∧
        React.root s' = React.root s ∧
        dom (Backend.live (React.backend s')) = dom (Backend.live (React.backend s)).
Proof.
  revert s. induction cs as [|[L p] cs IH]; intros s Hstale Hroot; simpl.
  - eauto 10.
  - destruct (react_mount_same_id L p eid s h Hstale Hroot)
      as (s1 & -> & Hdom & Hre & Hr & Hlive & _). simpl.
    destruct (IH s1) as (s' & Hrun & Hdom' & Hre' & Hr' & Hlive').
    { unfold React.stale in *. by rewrite Hre, Hdom. }
    { congruence. }
    exists s'. split_and!; congruence.
Qed.

(** Repeated [mount] calls with the id of the root element, Solid. *)
Lemma solid_mounts_same_id eid cs (s : Solid.state) :
  Solid.inv s → is_Some (Solid.dispose s) →
  Solid.stale s (default Solid.default_elementId eid) = false →
  ∃ s', Solid.run (mounts_at eid cs) s = Returned s' ∧ Solid.inv s' ∧
        is_Some (Solid.dispose s') ∧
        Solid.dom s' = Solid.dom s ∧
        Solid.rootElement s' = Solid.rootElement s.
Proof.
  revert s. induction cs as [|[L p] cs IH]; intros s Hinv Hd Hstale; simpl.
  - eauto 10.
  - destruct (solid_mount_same_id L p eid s Hstale) as (s1 & Hm & Hdom & Hre).
    rewrite Hm. simpl.
    destruct (IH s1) as (s' & Hrun & Hinv' & Hd' & Hdom' & Hre').
    { by eapply solid_inv_mount. }
    { rewrite (solid_mount_handle_new _ _ _ _ _ Hm). eauto. }
    { unfold Solid.stale in *. by rewrite Hre, Hdom. }
    exists s'. split_and!; congruence.
Qed.

(** What [unmount] does to the handles: the one held is disposed, the
    others are as they were. *)
Lemma react_unmount_handles (s s' : React.state) :
  React.unmount s = Returned s' →
  (∀ h, React.root s = Some h → Backend.live (React.backend s') !! h = None) ∧
  (∀ h, React.root s ≠ Some h →
        Backend.live (React.backend s') !! h = Backend.live (React.backend s) !! h).
Proof.
  unfold React.unmount. destruct (React.root s) as [h|] eqn:Hroot; intros [= <-].
  - simpl. split.
    + intros ? [= <-]. apply lookup_delete_eq.
    + intros h' Hne. apply lookup_delete_ne. congruence.
  - split; [congruence|done].
Qed.

Lemma solid_unmount_handles (s s' : Solid.state) :
  Solid.unmount s = Returned s' →
  (∀ h, Solid.dispose s = Some h → Backend.live (Solid.backend s') !! h = None) ∧
  (∀ h, Solid.dispose s ≠ Some h →
        Backend.live (Solid.backend s') !! h = Backend.live (Solid.backend s) !! h).
Proof.
  unfold Solid.unmount. destruct (Solid.dispose s) as [h|] eqn:Hd; intros [= <-].
  - simpl. split.
    + intros ? [= <-]. apply lookup_delete_eq.
    + intros h' Hne. apply lookup_delete_ne. congruence.
  - split; [congruence|done].
Qed.

(** [cleanup] in the Idle state changes nothing. *)
Lemma react_cleanup_idle (s : React.state) :
  React.root s = None → React.rootElement s = None → React.cleanup s = Returned s.
Proof.
  intros Hroot Hre. unfold React.cleanup, React.unmount. rewrite Hroot. simpl.
  rewrite Hre. destruct s; simpl in *. by subst.
Qed.

Lemma solid_cleanup_idle (s : Solid.state) :
  Solid.dispose s = None → Solid.rootElement s = None → Solid.cleanup s = Returned s.
Proof.
  intros Hd Hre. unfold Solid.cleanup, Solid.unmount. rewrite Hd. simpl.
  rewrite Hre. destruct s; simpl in *. by subst.
Qed.

Lemma phase_idle_inv (handle container : option nat) :
  phase_of handle container = Idle → handle = None ∧ container = None.
Proof. by destruct handle, container. Qed.

(** [mount] when it creates the element, in terms of what can be
    observed afterwards. *)
Lemma react_mount_creates_spec L p eid (s : React.state) :
  React.inv s →
  React.stale s (default React.default_elementId eid) = true →
  Dom.getElementById (default React.default_elementId eid) (React.dom s) = None →
  ∃ s' h, React.mount L p eid s = Returned s' ∧
    React.rootElement s' = Some (Dom.next_node (React.dom s)) ∧
    React.root s' = Some h ∧
    container_created (default React.default_elementId eid)
      (React.dom s) (React.dom s') (Dom.next_node (React.dom s)) ∧
    rendered_into (React.backend s') h (Dom.next_node (React.dom s)) L p.
Proof.
  intros Hinv Hstale Hnone.
  rewrite (react_mount_creates _ _ _ _ (React.inv_dom s Hinv) Hstale Hnone).
  eexists _, _. split; [done|].
  cbn [React.root React.rootElement React.dom React.backend].
  split_and!; try done.
  - split_and!; [|apply lookup_insert_eq|done].
    apply dom_next_node_new, Hinv.
  - unfold rendered_into. rewrite backend_render_new_eq. simpl.
    apply lookup_insert_eq.
Qed.

Lemma solid_mount_creates_spec L p eid (s : Solid.state) :
  Solid.inv s →
  Solid.stale s (default Solid.default_elementId eid) = true →
  Dom.getElementById (default Solid.default_elementId eid) (Solid.dom s) = None →
  ∃ s' h, Solid.mount L p eid s = Returned s' ∧
    Solid.rootElement s' = Some (Dom.next_node (Solid.dom s)) ∧
    Solid.dispose s' = Some h ∧
    container_created (default Solid.default_elementId eid)
      (Solid.dom s) (Solid.dom s') (Dom.next_node (Solid.dom s)) ∧
    rendered_into (Solid.backend s') h (Dom.next_node (Solid.dom s)) L p.
Proof.
  intros Hinv Hstale Hnone.
  destruct (solid_mount_creates L p eid s (Solid.inv_dom s Hinv) Hstale Hnone)
    as (s' & Hm & Hre & Hdom).
  destruct (solid_mount_post _ _ _ _ _ Hinv Hm) as (_ & n & h & Hre' & Hd & _ & _ & Hlive).
  rewrite Hre in Hre'. simplify_eq.
  exists s', h. split_and!; try done.
  - rewrite Hdom. split_and!; [|apply lookup_insert_eq|done].
    apply dom_next_node_new, Hinv.
  - unfold rendered_into. rewrite Hlive. apply lookup_singleton_eq.
Qed.

(** In the Solid variant [mount] succeeds in every reachable state, and
    afterwards exactly one tree is live: the given component with the
    given props, in the root element, which is in the document and has
    the requested id. *)
Lemma solid_mount_one_live_tree L p eid (s : Solid.state) :
  Solid.reachable s →
  ∃ s' n h, Solid.mount L p eid s = Returned s' ∧
    Solid.phase_of_state s' = Mounted ∧
    n ∈ Dom.body (Solid.dom s') ∧
    Dom.id_of (Solid.dom s') n = default Solid.default_elementId eid ∧
    Backend.live (Solid.backend s') = {[ h := Backend.Tree n (Some (VNode L p)) ]}.
Proof.
  intros Hinv%solid_reachable_inv.
  destruct (solid_mount_returns L p eid s) as [s' Hm].
  destruct (solid_mount_post _ _ _ _ _ Hinv Hm) as (_ & n & h & Hre & Hd & Hn & Hid & Hlive).
  exists s', n, h. split_and!; try done.
  unfold Solid.phase_of_state. by rewrite Hre, Hd.
Qed.

(** The React [mount] returns in every reachable state but the Detached
    state entered with the id of the root element. *)
Lemma react_mount_returns L p eid (s : React.state) :
  React.reachable s →
  (React.root s = None → React.stale s (default React.default_elementId eid) = true) →
  ∃ s', React.mount L p eid s = Returned s' ∧ React.phase_of_state s' = Mounted.
Proof.
  intros Hinv%react_reachable_inv Hdet.
  assert (∃ s', React.mount L p eid s = Returned s') as [s' Hm].
  { destruct (React.stale s (default React.default_elementId eid)) eqn:Hstale.
    - destruct (Dom.find_or_create (default React.default_elementId eid) (React.dom s))
        as [n d'] eqn:Hfc.
      rewrite (react_mount_stale _ _ _ _ _ _ Hstale Hfc). eauto.
    - destruct (React.root s) as [h|] eqn:Hroot.
      + rewrite (react_mount_reuse _ _ _ _ _ Hstale Hroot). eauto.
      + by specialize (Hdet eq_refl). }
  exists s'. split; [done|].
  destruct (react_mount_post _ _ _ _ _ Hinv Hm) as (_ & n & h & Hre & Hroot & _).
  unfold React.phase_of_state. by rewrite Hre, Hroot.
Qed.

(** When the handle held is the only live one, [unmount] leaves no
    live handle. *)
Lemma react_unmount_no_tree (s s' : React.state) :
  React.unmount s = Returned s' →
  (∀ h, is_Some (Backend.live (React.backend s) !! h) → React.root s = Some h) →
  Backend.live (React.backend s') = ∅.
Proof.
  intros [Hgone Hkept]%react_unmount_handles Honly.
  apply map_empty. intros h.
  destruct (decide (React.root s = Some h)) as [Hh|Hh]; [by apply Hgone|].
  rewrite (Hkept h Hh). apply eq_None_not_Some. intros Hlive. by apply Hh, Honly.
Qed.

Lemma solid_unmount_no_tree (s s' : Solid.state) :
  Solid.unmount s = Returned s' →
  (∀ h, is_Some (Backend.live (Solid.backend s) !! h) → Solid.dispose s = Some h) →
  Backend.live (Solid.backend s') = ∅.
Proof.
  intros [Hgone Hkept]%solid_unmount_handles Honly.
  apply map_empty. intros h.
  destruct (decide (Solid.dispose s = Some h)) as [Hh|Hh]; [by apply Hgone|].
  rewrite (Hkept h Hh). apply eq_None_not_Some. intros Hlive. by apply Hh, Honly.
Qed.

(** In the Solid variant the handle held is the only live one in every
    reachable state. *)
Lemma solid_reachable_tracks_handles (s : Solid.state) :
  Solid.reachable s →
  ∀ h, is_Some (Backend.live (Solid.backend s) !! h) → Solid.dispose s = Some h.
Proof.
  intros Hinv%solid_reachable_inv h [t Ht].
  destruct (Solid.dispose s) as [h'|] eqn:Hd.
  - destruct (Solid.inv_dispose s Hinv h' Hd) as (n & c & _ & Hlive).
    rewrite Hlive in Ht. apply lookup_singleton_Some in Ht as [-> _]. done.
  - rewrite (Solid.inv_idle s Hinv Hd), lookup_empty in Ht. done.
Qed.

End lifecycle.

(** * The properties of the specification, C1 to C10 *)

(** C1 (React variant, evaluated).  The specification asks that [mount]
    succeeds in every reachable state, in particular in the Detached
    state.  In the React variant, [mount] then [unmount] then [mount] with
    the same [elementId] on an empty document throws: the second [mount]
    skips the [if], [root] is [null] and [root.render] is a call on
    [null].  The call leaves the Detached state with no live tree. *)
Theorem react_mount_after_unmount_throws :
  ∃ s, React.run [Mount "Layout" [("content", "X")] (Some "app-root");
                  Unmount;
                  Mount "Layout" [("content", "X")] (Some "app-root")]
         (React.init Dom.empty)
       = Threw (TypeError "Cannot read properties of null (reading 'render')") s
     ∧ React.phase_of_state s = Detached
     ∧ Backend.live (React.backend s) = ∅.
Proof. eexists. split_and!; reflexivity. Qed.

(** C2 (React variant, evaluated).  The specification asks that between
    two [mount] calls with different [elementId]s the previous render
    handle is disposed before the new one is created.  In the React
    variant the second [mount] creates a root for the new container
    without unmounting the root it held: no [Dispose] call is made, and
    two handles are live at the same time. *)
Theorem react_mount_switch_two_live :
  ∃ s, React.run [Mount "Layout" [] (Some "app-root");
                  Mount "Layout" [] (Some "other-root")]
         (React.init Dom.empty)
       = Returned s
     ∧ size (Backend.live (React.backend s)) = 2
     ∧ Backend.peak (React.backend s) = 2
     ∧ Backend.calls (React.backend s) =
         [Backend.Create 0 0; Backend.Render 0 (VNode "Layout" []);
          Backend.Create 1 1; Backend.Render 1 (VNode "Layout" [])].
Proof. eexists. split_and!; reflexivity. Qed.

(** C4.  [unmount] only disposes the render handle and clears the stored
    handle: from every state it returns, the stored container reference
    and the whole document are unchanged (so the container element, if it
    was in the document, still is), the handle that was held is no longer
    live, and every other handle is as it was.  Both variants. *)
Theorem unmount_keeps_container :
  (∀ s : React.state,
     ∃ s', React.unmount s = Returned s' ∧
           React.root s' = None ∧
           React.rootElement s' = React.rootElement s ∧
           React.dom s' = React.dom s ∧
           (∀ n, React.rootElement s = Some n → n ∈ Dom.body (React.dom s) →
                 n ∈ Dom.body (React.dom s')) ∧
           (∀ h, React.root s = Some h → Backend.live (React.backend s') !! h = None) ∧
           (∀ h, React.root s ≠ Some h →
                 Backend.live (React.backend s') !! h = Backend.live (React.backend s) !! h)) ∧
  (∀ s : Solid.state,
     ∃ s', Solid.unmount s = Returned s' ∧
           Solid.dispose s' = None ∧
           Solid.rootElement s' = Solid.rootElement s ∧
           Solid.dom s' = Solid.dom s ∧
           (∀ n, Solid.rootElement s = Some n → n ∈ Dom.body (Solid.dom s) →
                 n ∈ Dom.body (Solid.dom s')) ∧
           (∀ h, Solid.dispose s = Some h → Backend.live (Solid.backend s') !! h = None) ∧
           (∀ h, Solid.dispose s ≠ Some h →
                 Backend.live (Solid.backend s') !! h = Backend.live (Solid.backend s) !! h)).
Proof.
  split; intros s.
  - destruct (react_unmount_returns s) as (s' & Hu & Hroot & Hre & Hdom).
    destruct (react_unmount_handles s s' Hu) as [Hgone Hkept].
    exists s'. split_and!; try done. intros n _. by rewrite Hdom.
  - destruct (solid_unmount_returns s) as (s' & Hu & Hd & Hre & Hdom).
    destruct (solid_unmount_handles s s' Hu) as [Hgone Hkept].
    exists s'. split_and!; try done. intros n _. by rewrite Hdom.
Qed.

Lemma unmount_keeps_container_witness :
  let r := state_after (React.mount "Layout" [] None (React.init Dom.empty)) in
  let s := state_after (Solid.mount "Layout" [] None (Solid.init Dom.empty)) in
  (∃ r', React.unmount r = Returned r' ∧
         React.rootElement r' = Some 0 ∧ 0 ∈ Dom.body (React.dom r') ∧
         Backend.live (React.backend r') !! 0 = None) ∧
  (∃ s', Solid.unmount s = Returned s' ∧
         Solid.rootElement s' = Some 0 ∧ 0 ∈ Dom.body (Solid.dom s') ∧
         Backend.live (Solid.backend s') !! 0 = None).
Proof.
  intros r s. split.
  - destruct (proj1 unmount_keeps_container r)
      as (r' & Hu & _ & Hre & _ & Hbody & Hgone & _).
    exists r'. split_and!.
    + exact Hu.
    + rewrite Hre. reflexivity.
    + apply Hbody; [reflexivity|]. vm_compute. constructor.
    + apply Hgone. reflexivity.
  - destruct (proj2 unmount_keeps_container s)
      as (s' & Hu & _ & Hre & _ & Hbody & Hgone & _).
    exists s'. split_and!.
    + exact Hu.
    + rewrite Hre. reflexivity.
    + apply Hbody; [reflexivity|]. vm_compute. constructor.
    + apply Hgone. reflexivity.
Defined.

(** C5.  [unmount] is idempotent: from every state, when no render handle
    is held it returns and leaves the state as it is, and a second
    [unmount] in a row returns and changes nothing.  Both variants. *)
Theorem unmount_idempotent :
  (∀ s : React.state,
     (React.root s = None → React.unmount s = Returned s) ∧
     ∃ s1, React.unmount s = Returned s1 ∧ React.unmount s1 = Returned s1) ∧
  (∀ s : Solid.state,
     (Solid.dispose s = None → Solid.unmount s = Returned s) ∧
     ∃ s1, Solid.unmount s = Returned s1 ∧ Solid.unmount s1 = Returned s1).
Proof.
  split; intros s.
  - unfold React.unmount at 1 2. split; [by intros ->|].
    destruct (React.root s) eqn:Hroot; eexists; split; try done.
    unfold React.unmount. by rewrite Hroot.
  - unfold Solid.unmount at 1 2. split; [by intros ->|].
    destruct (Solid.dispose s) eqn:Hd; eexists; split; try done.
    unfold Solid.unmount. by rewrite Hd.
Qed.

Lemma unmount_idempotent_witness :
  let r := state_after (React.mount "Layout" [] None (React.init Dom.empty)) in
  let s := state_after (Solid.mount "Layout" [] None (Solid.init Dom.empty)) in
  (React.unmount (React.init Dom.empty) = Returned (React.init Dom.empty) ∧
   ∃ r1, React.unmount r = Returned r1 ∧ React.unmount r1 = Returned r1) ∧
  (Solid.unmount (Solid.init Dom.empty) = Returned (Solid.init Dom.empty) ∧
   ∃ s1, Solid.unmount s = Returned s1 ∧ Solid.unmount s1 = Returned s1).
Proof.
  intros r s. split; split.
  - apply (proj1 (proj1 unmount_idempotent (React.init Dom.empty))). reflexivity.
  - apply (proj2 (proj1 unmount_idempotent r)).
  - apply (proj1 (proj2 unmount_idempotent (Solid.init Dom.empty))). reflexivity.
  - apply (proj2 (proj2 unmount_idempotent s)).
Defined.

(** C7.  [cleanup] in the Idle state (no handle and no container held:
    [mount] never called, or after a [cleanup]) returns and changes
    nothing, so it puts no element in the document.  Both variants. *)
Theorem cleanup_idle_noop :
  (∀ s : React.state, React.phase_of_state s = Idle → React.cleanup s = Returned s) ∧
  (∀ s : Solid.state, Solid.phase_of_state s = Idle → Solid.cleanup s = Returned s).
Proof.
  split; intros s [Hh Hc]%phase_idle_inv.
  - by apply react_cleanup_idle.
  - by apply solid_cleanup_idle.
Qed.

Lemma cleanup_idle_noop_witness :
  (React.cleanup (React.init Dom.empty) = Returned (React.init Dom.empty) ∧
   Dom.body (React.dom (state_after (React.cleanup (React.init Dom.empty)))) = []) ∧
  (Solid.cleanup (Solid.init Dom.empty) = Returned (Solid.init Dom.empty) ∧
   Dom.body (Solid.dom (state_after (Solid.cleanup (Solid.init Dom.empty)))) = []).
Proof.
  split; split.
  - apply (proj1 cleanup_idle_noop). reflexivity.
  - reflexivity.
  - apply (proj2 cleanup_idle_noop). reflexivity.
  - reflexivity.
Defined.

(** C8.  In a reachable state, when no element of the document has the
    requested id, [mount] returns after it created a [div] with that id,
    appended it to the body, made it the root element and rendered the
    given component with the given props into it.  Both variants. *)
Theorem mount_creates_container :
  (∀ (s : React.state) L p eid,
     React.reachable s →
     Dom.count_id (default React.default_elementId eid) (React.dom s) = 0 →
     ∃ s' n h, React.mount L p eid s = Returned s' ∧
       React.rootElement s' = Some n ∧ React.root s' = Some h ∧
       container_created (default React.default_elementId eid)
         (React.dom s) (React.dom s') n ∧
       rendered_into (React.backend s') h n L p) ∧
  (∀ (s : Solid.state) L p eid,
     Solid.reachable s →
     Dom.count_id (default Solid.default_elementId eid) (Solid.dom s) = 0 →
     ∃ s' n h, Solid.mount L p eid s = Returned s' ∧
       Solid.rootElement s' = Some n ∧ Solid.dispose s' = Some h ∧
       container_created (default Solid.default_elementId eid)
         (Solid.dom s) (Solid.dom s') n ∧
       rendered_into (Solid.backend s') h n L p).
Proof.
  split.
  - intros s L p eid Hinv%react_reachable_inv Hzero.
    destruct (react_no_id_stale s _ Hinv Hzero) as [Hstale Hnone].
    destruct (react_mount_creates_spec L p eid s Hinv Hstale Hnone) as (s' & h & H).
    by exists s', (Dom.next_node (React.dom s)), h.
  - intros s L p eid Hinv%solid_reachable_inv Hzero.
    destruct (solid_no_id_stale s _ Hinv Hzero) as [Hstale Hnone].
    destruct (solid_mount_creates_spec L p eid s Hinv Hstale Hnone) as (s' & h & H).
    by exists s', (Dom.next_node (Solid.dom s)), h.
Qed.

Lemma mount_creates_container_witness :
  (∃ s' n h,
     React.mount "Layout" [("content", "X")] (Some "app-root") (React.init Dom.empty)
       = Returned s' ∧
     React.rootElement s' = Some n ∧ React.root s' = Some h ∧
     container_created "app-root" Dom.empty (React.dom s') n ∧
     rendered_into (React.backend s') h n "Layout" [("content", "X")]) ∧
  (∃ s' n h,
     Solid.mount "Layout" [("content", "X")] None (Solid.init Dom.empty) = Returned s' ∧
     Solid.rootElement s' = Some n ∧ Solid.dispose s' = Some h ∧
     container_created "solid-root" Dom.empty (Solid.dom s') n ∧
     rendered_into (Solid.backend s') h n "Layout" [("content", "X")]).
Proof.
  split.
  - apply (proj1 mount_creates_container (React.init Dom.empty)
             "Layout" [("content", "X")] (Some "app-root")).
    + apply React.reach_init, dom_wf_empty.
    + reflexivity.
  - apply (proj2 mount_creates_container (Solid.init Dom.empty)
             "Layout" [("content", "X")] None).
    + apply Solid.reach_init, dom_wf_empty.
    + reflexivity.
Defined.

(** C10.  In the Solid variant every [mount] from a reachable state
    returns, and its backend calls are, in this order: the disposer held,
    if any, whatever the [elementId]; then the creation of a handle and
    the rendering into it.  The handle held afterwards is a new one, the
    handle held before is no longer live, exactly one handle is live, and
    no two handles were ever live at the same time. *)
Theorem solid_mount_disposes_first :
  ∀ (s : Solid.state) L p eid,
    Solid.reachable s →
    ∃ s' n h',
      Solid.mount L p eid s = Returned s' ∧
      Solid.dispose s' = Some h' ∧ Solid.rootElement s' = Some n ∧
      Backend.calls (Solid.backend s') =
        Backend.calls (Solid.backend s) ++
        match Solid.dispose s with
        | Some h => [Backend.Dispose h]
        | None => []
        end ++
        [Backend.Create h' n; Backend.Render h' (VNode L p)] ∧
      (∀ h, Solid.dispose s = Some h →
            h ≠ h' ∧ Backend.live (Solid.backend s') !! h = None) ∧
      Backend.live (Solid.backend s') = {[ h' := Backend.Tree n (Some (VNode L p)) ]} ∧
      size (Backend.live (Solid.backend s)) ≤ 1 ∧
      Backend.peak (Solid.backend s') ≤ 1.
Proof.
  intros s L p eid Hinv%solid_reachable_inv.
  destruct (solid_mount_returns L p eid s) as [s' Hm].
  pose proof (solid_inv_mount _ _ _ _ _ Hinv Hm) as Hinv'.
  pose proof (solid_mount_handle_new _ _ _ _ _ Hm) as Hnew.
  destruct (solid_mount_calls _ _ _ _ _ Hm) as (n & h' & Hd' & Hre' & Hcalls).
  destruct (solid_mount_post _ _ _ _ _ Hinv Hm) as (_ & n1 & h1 & Hre1 & Hd1 & _ & _ & Hlive).
  rewrite Hre' in Hre1. rewrite Hd' in Hd1, Hnew. simplify_eq.
  exists s', n1, (Backend.next_handle (Solid.backend s)). split_and!; try done.
  - intros h Hd. destruct (Solid.inv_dispose s Hinv h Hd) as (m & c & _ & Hl).
    assert (h ≠ Backend.next_handle (Solid.backend s)) as Hne.
    { pose proof (Solid.inv_backend s Hinv h) as Hlt. rewrite Hl in Hlt.
      rewrite lookup_singleton_eq in Hlt. specialize (Hlt ltac:(eauto)). lia. }
    split; [done|]. rewrite Hlive. by apply lookup_singleton_ne.
  - destruct (Solid.dispose s) as [h|] eqn:Hd.
    + destruct (Solid.inv_dispose s Hinv h Hd) as (m & c & _ & ->).
      by rewrite map_size_singleton.
    + rewrite (Solid.inv_idle s Hinv Hd). rewrite map_size_empty. lia.
  - apply Hinv'.
Qed.

Lemma solid_mount_disposes_first_witness :
  let s := state_after (Solid.mount "Layout" [] (Some "app-root") (Solid.init Dom.empty)) in
  ∃ s' n h',
    Solid.mount "Posts" [] (Some "app-root") s = Returned s' ∧
    Solid.dispose s' = Some h' ∧ Solid.rootElement s' = Some n ∧
    Backend.calls (Solid.backend s') =
      Backend.calls (Solid.backend s) ++
      match Solid.dispose s with
      | Some h => [Backend.Dispose h]
      | None => []
      end ++
      [Backend.Create h' n; Backend.Render h' (VNode "Posts" [])] ∧
    (∀ h, Solid.dispose s = Some h →
          h ≠ h' ∧ Backend.live (Solid.backend s') !! h = None) ∧
    Backend.live (Solid.backend s') = {[ h' := Backend.Tree n (Some (VNode "Posts" [])) ]} ∧
    size (Backend.live (Solid.backend s)) ≤ 1 ∧
    Backend.peak (Solid.backend s') ≤ 1.
Proof.
  apply (solid_mount_disposes_first _ "Posts" [] (Some "app-root")).
  eapply Solid.reach_step with (o := Mount "Layout" [] (Some "app-root"));
    [apply Solid.reach_init, dom_wf_empty|reflexivity].
Defined.

(** * Further properties of the two mounters *)

Section further_facts.

Local Opaque Backend.render_new.

(** Call sequences compose. *)
Lemma react_run_app os1 os2 (s : React.state) :
  React.run (os1 ++ os2) s = and_then (React.run os1 s) (React.run os2).
Proof.
  revert s. induction os1 as [|o os1 IH]; intros s; simpl; [done|].
  destruct (React.step o s); simpl; auto.
Qed.

Lemma solid_run_app os1 os2 (s : Solid.state) :
  Solid.run (os1 ++ os2) s = and_then (Solid.run os1 s) (Solid.run os2).
Proof.
  revert s. induction os1 as [|o os1 IH]; intros s; simpl; [done|].
  destruct (Solid.step o s); simpl; auto.
Qed.

Lemma react_reachable_run os (s s' : React.state) :
  React.reachable s → React.run os s = Returned s' → React.reachable s'.
Proof.
  revert s. induction os as [|o os IH]; intros s Hs; simpl.
  - by intros [= <-].
  - destruct (React.step o s) as [s1|] eqn:Hstep; simpl; [|done].
    apply IH. by eapply React.reach_step.
Qed.

Lemma solid_reachable_run os (s s' : Solid.state) :
  Solid.reachable s → Solid.run os s = Returned s' → Solid.reachable s'.
Proof.
  revert s. induction os as [|o os IH]; intros s Hs; simpl.
  - by intros [= <-].
  - destruct (Solid.step o s) as [s1|] eqn:Hstep; simpl; [|done].
    apply IH. by eapply Solid.reach_step.
Qed.

(** In a well-formed document at most one element has a given id. *)
Lemma dom_count_le_one i (d : Dom.document) :
  Dom.wf d → i ≠ "" → Dom.count_id i d ≤ 1.
Proof.
  intros Hwf Hi. unfold Dom.count_id.
  destruct (filter (λ n, Dom.id_of d n = i) (Dom.body d)) as [|n l] eqn:Hf.
  - simpl. lia.
  - assert (n ∈ filter (λ n, Dom.id_of d n = i) (Dom.body d)) as Hn
      by (rewrite Hf; left).
    apply (list_elem_of_filter (λ n, Dom.id_of d n = i)) in Hn as [Hid Hn].
    pose proof (dom_count_unique d n Hwf Hn ltac:(by rewrite Hid)) as Hone.
    unfold Dom.count_id in Hone. rewrite Hid, Hf in Hone. lia.
Qed.

(** What [find_or_create] does to a well-formed document: nothing, or one
    element more at the end. *)
Lemma dom_find_or_create_cases i (d : Dom.document) n d' :
  Dom.wf d → Dom.find_or_create i d = (n, d') →
  (Dom.getElementById i d = Some n ∧ d' = d) ∨
  (Dom.getElementById i d = None ∧ n = Dom.next_node d ∧ d' = Dom.created i d).
Proof.
  intros Hwf Hfc. destruct (Dom.getElementById i d) as [m|] eqn:Hf.
  - rewrite (dom_find_or_create_found _ _ _ Hf) in Hfc. left. by simplify_eq.
  - rewrite dom_find_or_create_new in Hfc by done. right. by simplify_eq.
Qed.

(** The document after a [mount] that returned, React. *)
Lemma react_mount_dom L p eid (s s' : React.state) :
  React.inv s → React.mount L p eid s = Returned s' →
  (React.dom s' = React.dom s ∧
   (React.rootElement s' = React.rootElement s ∨
    ∃ n, React.rootElement s' = Some n ∧
         Dom.getElementById (default React.default_elementId eid) (React.dom s) = Some n)) ∨
  (React.dom s' = Dom.created (default React.default_elementId eid) (React.dom s) ∧
   React.rootElement s' = Some (Dom.next_node (React.dom s)) ∧
   Dom.getElementById (default React.default_elementId eid) (React.dom s) = None).
Proof.
  intros Hinv Hm.
  destruct (React.stale s (default React.default_elementId eid)) eqn:Hstale.
  - destruct (Dom.find_or_create (default React.default_elementId eid) (React.dom s))
      as [n d'] eqn:Hfc.
    rewrite (react_mount_stale _ _ _ _ _ _ Hstale Hfc) in Hm. simplify_eq.
    cbn [React.dom React.rootElement].
    destruct (dom_find_or_create_cases _ _ _ _ (React.inv_dom s Hinv) Hfc)
      as [[Hf ->]|(Hf & -> & ->)]; [left|right]; eauto.
  - destruct (React.root s) as [h|] eqn:Hroot.
    + rewrite (react_mount_reuse _ _ _ _ _ Hstale Hroot) in Hm. simplify_eq.
      left. auto.
    + by rewrite (react_mount_null _ _ _ _ Hstale Hroot) in Hm.
Qed.

(** The document after a [mount], Solid. *)
Lemma solid_mount_dom L p eid (s s' : Solid.state) :
  Solid.inv s → Solid.mount L p eid s = Returned s' →
  (Solid.dom s' = Solid.dom s ∧
   (Solid.rootElement s' = Solid.rootElement s ∨
    ∃ n, Solid.rootElement s' = Some n ∧
         Dom.getElementById (default Solid.default_elementId eid) (Solid.dom s) = Some n)) ∨
  (Solid.dom s' = Dom.created (default Solid.default_elementId eid) (Solid.dom s) ∧
   Solid.rootElement s' = Some (Dom.next_node (Solid.dom s)) ∧
   Dom.getElementById (default Solid.default_elementId eid) (Solid.dom s) = None).
Proof.
  intros Hinv Hm.
  destruct (Solid.root_element_for (default Solid.default_elementId eid)
    (Solid.dispose_previous s)) as [n s2] eqn:Hr.
  rewrite (solid_mount_eq _ _ _ _ _ _ Hr) in Hm. simplify_eq.
  cbn [Solid.dom Solid.rootElement].
  destruct (solid_dispose_previous_frame s) as (_ & Hre1 & Hdom1).
  destruct (solid_root_element_for_spec _ _ _ _ Hr) as (Hre & _ & _ & [[Hst ->]|[Hst Hfc]]).
  - left. rewrite Hdom1. split; [done|]. left. congruence.
  - rewrite Hdom1 in Hfc.
    destruct (dom_find_or_create_cases _ _ _ _ (Solid.inv_dom s Hinv) Hfc)
      as [[Hf Hd]|(Hf & -> & Hd)]; rewrite Hd; [left|right]; eauto.
Qed.

End further_facts.

Section lifecycle_invariants.

Local Opaque Backend.render_new.

(** X1.  In every reachable state of the React mounter a root is never
    held without a root element, the root element is in the document, and
    the root held is a live handle bound to the root element. *)
Theorem react_lifecycle_invariant (s : React.state) :
  React.reachable s →
  React.phase_of_state s ≠ Unbound ∧
  (∀ n, React.rootElement s = Some n → n ∈ Dom.body (React.dom s)) ∧
  (∀ h, React.root s = Some h →
     ∃ n c, React.rootElement s = Some n ∧
            Backend.live (React.backend s) !! h = Some (Backend.Tree n c)).
Proof.
  intros Hinv%react_reachable_inv. split_and!.
  - unfold React.phase_of_state, phase_of.
    destruct (React.root s) as [h|] eqn:Hroot.
    + destruct (React.inv_root s Hinv h Hroot) as (n & c & -> & _). done.
    + by destruct (React.rootElement s).
  - apply Hinv.
  - apply Hinv.
Qed.

Lemma react_lifecycle_invariant_witness :
  let s := state_after (React.run [Mount "Layout" [] None; Mount "Layout" [] (Some "other");
                                   Unmount] (React.init Dom.empty)) in
  React.phase_of_state s ≠ Unbound ∧
  (∀ n, React.rootElement s = Some n → n ∈ Dom.body (React.dom s)) ∧
  (∀ h, React.root s = Some h →
     ∃ n c, React.rootElement s = Some n ∧
            Backend.live (React.backend s) !! h = Some (Backend.Tree n c)).
Proof.
  apply react_lifecycle_invariant.
  apply (react_reachable_run
           [Mount "Layout" [] None; Mount "Layout" [] (Some "other"); Unmount]
           (React.init Dom.empty)); [apply React.reach_init, dom_wf_empty|reflexivity].
Defined.

(** X2.  In every reachable state of the Solid mounter a disposer is
    never held without a root element, the root element is in the
    document, the live handles are exactly the one the disposer held
    disposes, that handle is bound to the root element, and at no time
    were two handles live. *)
Theorem solid_single_handle_invariant (s : Solid.state) :
  Solid.reachable s →
  Solid.phase_of_state s ≠ Unbound ∧
  (∀ n, Solid.rootElement s = Some n → n ∈ Dom.body (Solid.dom s)) ∧
  (∀ h, is_Some (Backend.live (Solid.backend s) !! h) ↔ Solid.dispose s = Some h) ∧
  (∀ h n c, Backend.live (Solid.backend s) !! h = Some (Backend.Tree n c) →
            Solid.rootElement s = Some n) ∧
  size (Backend.live (Solid.backend s)) ≤ 1 ∧
  Backend.peak (Solid.backend s) ≤ 1.
Proof.
  intros Hinv%solid_reachable_inv.
  destruct (Solid.dispose s) as [h|] eqn:Hd.
  - destruct (Solid.inv_dispose s Hinv h Hd) as (n & c & Hre & Hlive).
    split_and!.
    + unfold Solid.phase_of_state. by rewrite Hd, Hre.
    + apply Hinv.
    + intros h'. rewrite Hlive. split.
      * intros [t [-> _]%lookup_singleton_Some]. done.
      * intros [= <-]. rewrite lookup_singleton_eq. eauto.
    + intros h' n' c'. rewrite Hlive.
      intros [_ [= <- _]]%lookup_singleton_Some. done.
    + by rewrite Hlive, map_size_singleton.
    + apply Hinv.
  - pose proof (Solid.inv_idle s Hinv Hd) as Hlive. split_and!.
    + unfold Solid.phase_of_state. rewrite Hd. by destruct (Solid.rootElement s).
    + apply Hinv.
    + intros h. rewrite Hlive, lookup_empty. split; [by intros [? ?]|done].
    + intros h n c. by rewrite Hlive, lookup_empty.
    + rewrite Hlive, map_size_empty. lia.
    + apply Hinv.
Qed.

Lemma solid_single_handle_invariant_witness :
  let s := state_after (Solid.run [Mount "Layout" [] None; Mount "Layout" [] (Some "other");
                                   Unmount; Mount "Posts" [] None]
                          (Solid.init Dom.empty)) in
  Solid.phase_of_state s ≠ Unbound ∧
  (∀ n, Solid.rootElement s = Some n → n ∈ Dom.body (Solid.dom s)) ∧
  (∀ h, is_Some (Backend.live (Solid.backend s) !! h) ↔ Solid.dispose s = Some h) ∧
  (∀ h n c, Backend.live (Solid.backend s) !! h = Some (Backend.Tree n c) →
            Solid.rootElement s = Some n) ∧
  size (Backend.live (Solid.backend s)) ≤ 1 ∧
  Backend.peak (Solid.backend s) ≤ 1.
Proof.
  apply solid_single_handle_invariant.
  apply (solid_reachable_run
           [Mount "Layout" [] None; Mount "Layout" [] (Some "other");
            Unmount; Mount "Posts" [] None]
           (Solid.init Dom.empty)); [apply Solid.reach_init, dom_wf_empty|reflexivity].
Defined.

(** X3.  Whatever the calls, the mounters never leave two elements with
    the same non-empty id in a document that had none: in every reachable
    state at most one element of the document has a given non-empty id.
    Both variants. *)
Theorem mounters_keep_ids_unique :
  (∀ (s : React.state) i,
     React.reachable s → i ≠ "" → Dom.count_id i (React.dom s) ≤ 1) ∧
  (∀ (s : Solid.state) i,
     Solid.reachable s → i ≠ "" → Dom.count_id i (Solid.dom s) ≤ 1).
Proof.
  split.
  - intros s i Hinv%react_reachable_inv Hi. apply dom_count_le_one; [apply Hinv|done].
  - intros s i Hinv%solid_reachable_inv Hi. apply dom_count_le_one; [apply Hinv|done].
Qed.

Lemma mounters_keep_ids_unique_witness :
  let os := [Mount "Layout" [] (Some "a"); Mount "Layout" [] (Some "b"); Cleanup;
             Mount "Layout" [] (Some "a"); Mount "Layout" [] (Some "b")] in
  Dom.count_id "a" (React.dom (state_after (React.run os (React.init Dom.empty)))) ≤ 1 ∧
  Dom.count_id "b" (Solid.dom (state_after (Solid.run os (Solid.init Dom.empty)))) ≤ 1.
Proof.
  intros os. split.
  - apply (proj1 mounters_keep_ids_unique); [|done].
    apply (react_reachable_run os (React.init Dom.empty));
      [apply React.reach_init, dom_wf_empty|reflexivity].
  - apply (proj2 mounters_keep_ids_unique); [|done].
    apply (solid_reachable_run os (Solid.init Dom.empty));
      [apply Solid.reach_init, dom_wf_empty|reflexivity].
Defined.

(** X4.  The React [mount] throws exactly in the Detached state when
    called with the id of the root element it still holds; it then throws
    the [TypeError] of a call on [null] and leaves the state as it was.
    In every other state it returns. *)
Theorem react_mount_throws_iff_detached L p eid (s : React.state) :
  ((∃ err s', React.mount L p eid s = Threw err s') ↔
   React.phase_of_state s = Detached ∧
   React.stale s (default React.default_elementId eid) = false) ∧
  (∀ err s', React.mount L p eid s = Threw err s' →
     s' = s ∧ err = TypeError "Cannot read properties of null (reading 'render')").
Proof.
  destruct (React.stale s (default React.default_elementId eid)) eqn:Hstale.
  - destruct (Dom.find_or_create (default React.default_elementId eid) (React.dom s))
      as [n d'] eqn:Hfc.
    rewrite (react_mount_stale _ _ _ _ _ _ Hstale Hfc). split.
    + split; [by intros (? & ? & ?)|by intros [_ ?]].
    + done.
  - pose proof Hstale as (n & Hre & _)%react_stale_false.
    destruct (React.root s) as [h|] eqn:Hroot.
    + rewrite (react_mount_reuse _ _ _ _ _ Hstale Hroot). split.
      * split; [by intros (? & ? & ?)|].
        unfold React.phase_of_state. rewrite Hroot, Hre. by intros [? _].
      * done.
    + rewrite (react_mount_null _ _ _ _ Hstale Hroot). split.
      * split; [|eauto]. intros _.
        unfold React.phase_of_state. by rewrite Hroot, Hre.
      * by intros err s' [= <- <-].
Qed.

End lifecycle_invariants.

Section documents.

Local Opaque Backend.render_new.

(** A document that already holds one element, with the id [i]. *)
Lemma dom_wf_one i : Dom.wf (Dom.created i Dom.empty).
Proof.
  apply created_wf; [apply dom_wf_empty|].
  apply dom_find_None. right. intros n Hn. inversion Hn.
Qed.

(** X5.  After a [mount] that returned from a reachable state, the
    lifecycle is in the Mounted state: the root element is in the
    document and has the requested id, and the handle held is live, bound
    to the root element, and shows the component and the props of this
    call (whatever it showed before).  The Solid [mount] always returns,
    and that handle is then the only live one. *)
Theorem mount_shows_latest_component :
  (∀ (s s' : React.state) L p eid,
     React.reachable s → React.mount L p eid s = Returned s' →
     React.phase_of_state s' = Mounted ∧
     ∃ n h, React.rootElement s' = Some n ∧ React.root s' = Some h ∧
            n ∈ Dom.body (React.dom s') ∧
            Dom.id_of (React.dom s') n = default React.default_elementId eid ∧
            rendered_into (React.backend s') h n L p) ∧
  (∀ (s : Solid.state) L p eid,
     Solid.reachable s →
     ∃ s' n h, Solid.mount L p eid s = Returned s' ∧
            Solid.phase_of_state s' = Mounted ∧
            Solid.rootElement s' = Some n ∧ Solid.dispose s' = Some h ∧
            n ∈ Dom.body (Solid.dom s') ∧
            Dom.id_of (Solid.dom s') n = default Solid.default_elementId eid ∧
            Backend.live (Solid.backend s') = {[ h := Backend.Tree n (Some (VNode L p)) ]}).
Proof.
  split.
  - intros s s' L p eid Hinv%react_reachable_inv Hm.
    destruct (react_mount_post _ _ _ _ _ Hinv Hm) as (_ & n & h & Hre & Hroot & Hn & Hid & Hr).
    split; [unfold React.phase_of_state; by rewrite Hre, Hroot|].
    by exists n, h.
  - intros s L p eid Hinv%solid_reachable_inv.
    destruct (solid_mount_returns L p eid s) as [s' Hm].
    destruct (solid_mount_post _ _ _ _ _ Hinv Hm) as (_ & n & h & Hre & Hd & Hn & Hid & Hlive).
    exists s', n, h. split_and!; try done.
    unfold Solid.phase_of_state. by rewrite Hre, Hd.
Qed.

Lemma mount_shows_latest_component_witness :
  let r := state_after (React.mount "Layout" [("content", "A")] None (React.init Dom.empty)) in
  let s := state_after (Solid.mount "Layout" [("content", "A")] None (Solid.init Dom.empty)) in
  (∃ r', React.mount "Layout" [("content", "B")] None r = Returned r' ∧
         React.phase_of_state r' = Mounted ∧
         ∃ n h, React.rootElement r' = Some n ∧ React.root r' = Some h ∧
                n ∈ Dom.body (React.dom r') ∧
                Dom.id_of (React.dom r') n = "react-root" ∧
                rendered_into (React.backend r') h n "Layout" [("content", "B")]) ∧
  (∃ s' n h, Solid.mount "Layout" [("content", "B")] None s = Returned s' ∧
         Solid.phase_of_state s' = Mounted ∧
         Solid.rootElement s' = Some n ∧ Solid.dispose s' = Some h ∧
         n ∈ Dom.body (Solid.dom s') ∧
         Dom.id_of (Solid.dom s') n = "solid-root" ∧
         Backend.live (Solid.backend s') =
           {[ h := Backend.Tree n (Some (VNode "Layout" [("content", "B")])) ]}).
Proof.
  intros r s. split.
  - eexists. split; [reflexivity|].
    apply (proj1 mount_shows_latest_component r _ "Layout" [("content", "B")] None).
    + apply (react_reachable_run [Mount "Layout" [("content", "A")] None]
               (React.init Dom.empty));
        [apply React.reach_init, dom_wf_empty|reflexivity].
    + reflexivity.
  - apply (proj2 mount_shows_latest_component s "Layout" [("content", "B")] None).
    apply (solid_reachable_run [Mount "Layout" [("content", "A")] None]
             (Solid.init Dom.empty));
      [apply Solid.reach_init, dom_wf_empty|reflexivity].
Defined.

(** X6.  When an element with the requested id is already in the
    document, a [mount] that returns from a reachable state makes that
    element the root element and leaves the document as it is: nothing
    is created.  Both variants. *)
Theorem mount_adopts_existing_element :
  (∀ (s s' : React.state) L p eid n,
     React.reachable s →
     Dom.getElementById (default React.default_elementId eid) (React.dom s) = Some n →
     React.mount L p eid s = Returned s' →
     React.dom s' = React.dom s ∧ React.rootElement s' = Some n) ∧
  (∀ (s s' : Solid.state) L p eid n,
     Solid.reachable s →
     Dom.getElementById (default Solid.default_elementId eid) (Solid.dom s) = Some n →
     Solid.mount L p eid s = Returned s' →
     Solid.dom s' = Solid.dom s ∧ Solid.rootElement s' = Some n).
Proof.
  split.
  - intros s s' L p eid n Hinv%react_reachable_inv Hf Hm.
    destruct (react_mount_post _ _ _ _ _ Hinv Hm) as (_ & m & h & Hre & _ & Hm' & Hid & _).
    destruct (react_mount_dom _ _ _ _ _ Hinv Hm) as [[Hdom _]|(_ & _ & Hnone)]; [|congruence].
    split; [done|]. rewrite Hre. f_equal.
    apply dom_find_Some in Hf as (Hn & Hidn & Hne).
    rewrite Hdom in Hm', Hid.
    apply (Dom.wf_ids _ (React.inv_dom s Hinv)); congruence.
  - intros s s' L p eid n Hinv%solid_reachable_inv Hf Hm.
    destruct (solid_mount_post _ _ _ _ _ Hinv Hm) as (_ & m & h & Hre & _ & Hm' & Hid & _).
    destruct (solid_mount_dom _ _ _ _ _ Hinv Hm) as [[Hdom _]|(_ & _ & Hnone)]; [|congruence].
    split; [done|]. rewrite Hre. f_equal.
    apply dom_find_Some in Hf as (Hn & Hidn & Hne).
    rewrite Hdom in Hm', Hid.
    apply (Dom.wf_ids _ (Solid.inv_dom s Hinv)); congruence.
Qed.

Lemma mount_adopts_existing_element_witness :
  let d := Dom.created "app-root" Dom.empty in
  let r' := state_after (React.mount "Layout" [] (Some "app-root") (React.init d)) in
  let s' := state_after (Solid.mount "Layout" [] (Some "app-root") (Solid.init d)) in
  (React.dom r' = d ∧ React.rootElement r' = Some 0) ∧
  (Solid.dom s' = d ∧ Solid.rootElement s' = Some 0).
Proof.
  intros d r' s'. split.
  - apply (proj1 mount_adopts_existing_element (React.init d) r'
             "Layout" [] (Some "app-root") 0).
    + apply React.reach_init, dom_wf_one.
    + reflexivity.
    + reflexivity.
  - apply (proj2 mount_adopts_existing_element (Solid.init d) s'
             "Layout" [] (Some "app-root") 0).
    + apply Solid.reach_init, dom_wf_one.
    + reflexivity.
    + reflexivity.
Defined.

(** X7.  A [mount] that returns from a reachable state removes no
    element and changes none: the body is as before, or as before with
    one new element at its end, and every element that was in the
    document is stored as it was.  In particular the container of a
    previous [elementId] stays in the document.  Both variants. *)
Theorem mount_never_removes_elements :
  (∀ (s s' : React.state) L p eid,
     React.reachable s → React.mount L p eid s = Returned s' →
     (Dom.body (React.dom s') = Dom.body (React.dom s) ∨
      Dom.body (React.dom s') = Dom.body (React.dom s) ++ [Dom.next_node (React.dom s)]) ∧
     (∀ m, m ∈ Dom.body (React.dom s) →
           Dom.elements (React.dom s') !! m = Dom.elements (React.dom s) !! m)) ∧
  (∀ (s s' : Solid.state) L p eid,
     Solid.reachable s → Solid.mount L p eid s = Returned s' →
     (Dom.body (Solid.dom s') = Dom.body (Solid.dom s) ∨
      Dom.body (Solid.dom s') = Dom.body (Solid.dom s) ++ [Dom.next_node (Solid.dom s)]) ∧
     (∀ m, m ∈ Dom.body (Solid.dom s) →
           Dom.elements (Solid.dom s') !! m = Dom.elements (Solid.dom s) !! m)).
Proof.
  split.
  - intros s s' L p eid Hinv%react_reachable_inv Hm.
    destruct (dom_next_node_new _ (React.inv_dom s Hinv)) as [_ Hnew].
    destruct (react_mount_dom _ _ _ _ _ Hinv Hm) as [[-> _]|(-> & _ & _)].
    + split; [by left|done].
    + split; [by right|]. intros m Hm'. simpl.
      apply lookup_insert_ne. by intros <-.
  - intros s s' L p eid Hinv%solid_reachable_inv Hm.
    destruct (dom_next_node_new _ (Solid.inv_dom s Hinv)) as [_ Hnew].
    destruct (solid_mount_dom _ _ _ _ _ Hinv Hm) as [[-> _]|(-> & _ & _)].
    + split; [by left|done].
    + split; [by right|]. intros m Hm'. simpl.
      apply lookup_insert_ne. by intros <-.
Qed.

Lemma mount_never_removes_elements_witness :
  let r := state_after (React.mount "Layout" [] (Some "a") (React.init Dom.empty)) in
  let r' := state_after (React.mount "Layout" [] (Some "b") r) in
  let s := state_after (Solid.mount "Layout" [] (Some "a") (Solid.init Dom.empty)) in
  let s' := state_after (Solid.mount "Layout" [] (Some "b") s) in
  ((Dom.body (React.dom r') = Dom.body (React.dom r) ∨
    Dom.body (React.dom r') = Dom.body (React.dom r) ++ [Dom.next_node (React.dom r)]) ∧
   (∀ m, m ∈ Dom.body (React.dom r) →
         Dom.elements (React.dom r') !! m = Dom.elements (React.dom r) !! m)) ∧
  ((Dom.body (Solid.dom s') = Dom.body (Solid.dom s) ∨
    Dom.body (Solid.dom s') = Dom.body (Solid.dom s) ++ [Dom.next_node (Solid.dom s)]) ∧
   (∀ m, m ∈ Dom.body (Solid.dom s) →
         Dom.elements (Solid.dom s') !! m = Dom.elements (Solid.dom s) !! m)).
Proof.
  intros r r' s s'. split.
  - apply (proj1 mount_never_removes_elements r r' "Layout" [] (Some "b")).
    + apply (react_reachable_run [Mount "Layout" [] (Some "a")] (React.init Dom.empty));
        [apply React.reach_init, dom_wf_empty|reflexivity].
    + reflexivity.
  - apply (proj2 mount_never_removes_elements s s' "Layout" [] (Some "b")).
    + apply (solid_reachable_run [Mount "Layout" [] (Some "a")] (Solid.init Dom.empty));
        [apply Solid.reach_init, dom_wf_empty|reflexivity].
    + reflexivity.
Defined.

End documents.

Section teardown.

Local Opaque Backend.render_new.

(** [cleanup] in one equation, React. *)
Lemma react_cleanup_dom (s : React.state) :
  ∃ s', React.cleanup s = Returned s' ∧
    React.backend s' = React.backend (state_after (React.unmount s)) ∧
    React.dom s' =
      match React.rootElement s with
      | Some n => if bool_decide (n ∈ Dom.body (React.dom s))
                  then Dom.removeChild Dom.BodyRef n (React.dom s)
                  else React.dom s
      | None => React.dom s
      end.
Proof.
  destruct (react_unmount_returns s) as (s1 & Hu & _ & Hre & Hdom).
  unfold React.cleanup. rewrite Hu. simpl. eexists. split; [done|]. simpl.
  split; [done|]. rewrite Hre, Hdom. unfold Dom.parentNode.
  destruct (React.rootElement s) as [n|]; [|done].
  by destruct (bool_decide (n ∈ Dom.body (React.dom s))).
Qed.

Lemma solid_cleanup_dom (s : Solid.state) :
  ∃ s', Solid.cleanup s = Returned s' ∧
    Solid.backend s' = Solid.backend (state_after (Solid.unmount s)) ∧
    Solid.dom s' =
      match Solid.rootElement s with
      | Some n => if bool_decide (n ∈ Dom.body (Solid.dom s))
                  then Dom.removeChild Dom.BodyRef n (Solid.dom s)
                  else Solid.dom s
      | None => Solid.dom s
      end.
Proof.
  destruct (solid_unmount_returns s) as (s1 & Hu & _ & Hre & Hdom).
  unfold Solid.cleanup. rewrite Hu. simpl. eexists. split; [done|]. simpl.
  split; [done|]. rewrite Hre, Hdom. unfold Dom.parentNode.
  destruct (Solid.rootElement s) as [n|]; [|done].
  by destruct (bool_decide (n ∈ Dom.body (Solid.dom s))).
Qed.

(** The elements left by the removal of the root element. *)
Lemma cleanup_body_spec (re : option nat) (d : Dom.document) m :
  m ∈ Dom.body
        match re with
        | Some n => if bool_decide (n ∈ Dom.body d)
                    then Dom.removeChild Dom.BodyRef n d else d
        | None => d
        end ↔
  m ∈ Dom.body d ∧ re ≠ Some m.
Proof.
  destruct re as [n|]; [|by intuition].
  destruct (bool_decide_reflect (n ∈ Dom.body d)) as [Hn|Hn].
  - rewrite dom_removeChild_body. split.
    + intros [Hne Hm]. split; [done|]. by intros [= ->].
    + intros [Hm Hne]. split; [|done]. by intros ->.
  - split; [|by intros [? _]]. intros Hm. split; [done|]. by intros [= ->].
Qed.

(** X8.  [cleanup] takes at most the root element out of the document:
    from every state it returns, an element is in the document
    afterwards exactly when it was there before and is not the root
    element held, no element is created or changed, and every render
    handle but the one held is as it was.  Both variants. *)
Theorem cleanup_removes_only_root_element :
  (∀ s : React.state,
     ∃ s', React.cleanup s = Returned s' ∧
       (∀ m, m ∈ Dom.body (React.dom s') ↔
             m ∈ Dom.body (React.dom s) ∧ React.rootElement s ≠ Some m) ∧
       Dom.elements (React.dom s') = Dom.elements (React.dom s) ∧
       (∀ h, React.root s ≠ Some h →
             Backend.live (React.backend s') !! h = Backend.live (React.backend s) !! h)) ∧
  (∀ s : Solid.state,
     ∃ s', Solid.cleanup s = Returned s' ∧
       (∀ m, m ∈ Dom.body (Solid.dom s') ↔
             m ∈ Dom.body (Solid.dom s) ∧ Solid.rootElement s ≠ Some m) ∧
       Dom.elements (Solid.dom s') = Dom.elements (Solid.dom s) ∧
       (∀ h, Solid.dispose s ≠ Some h →
             Backend.live (Solid.backend s') !! h = Backend.live (Solid.backend s) !! h)).
Proof.
  split; intros s.
  - destruct (react_cleanup_dom s) as (s' & Hc & Hb & Hdom).
    destruct (react_unmount_returns s) as (s1 & Hu & _).
    destruct (react_unmount_handles s s1 Hu) as [_ Hkept].
    rewrite Hu in Hb. simpl in Hb.
    exists s'. split_and!; [done| | |].
    + intros m. rewrite Hdom. apply cleanup_body_spec.
    + rewrite Hdom. destruct (React.rootElement s) as [n|]; [|done].
      by destruct (bool_decide (n ∈ Dom.body (React.dom s))).
    + intros h Hh. rewrite Hb. by apply Hkept.
  - destruct (solid_cleanup_dom s) as (s' & Hc & Hb & Hdom).
    destruct (solid_unmount_returns s) as (s1 & Hu & _).
    destruct (solid_unmount_handles s s1 Hu) as [_ Hkept].
    rewrite Hu in Hb. simpl in Hb.
    exists s'. split_and!; [done| | |].
    + intros m. rewrite Hdom. apply cleanup_body_spec.
    + rewrite Hdom. destruct (Solid.rootElement s) as [n|]; [|done].
      by destruct (bool_decide (n ∈ Dom.body (Solid.dom s))).
    + intros h Hh. rewrite Hb. by apply Hkept.
Qed.

(** The body after a new element was appended and removed again. *)
Lemma created_removed_body i (d : Dom.document) :
  Dom.wf d →
  Dom.body (Dom.removeChild Dom.BodyRef (Dom.next_node d) (Dom.created i d)) = Dom.body d.
Proof.
  intros Hwf. destruct (dom_next_node_new d Hwf) as [_ Hnew]. simpl.
  rewrite filter_app, filter_cons_False, filter_nil, app_nil_r by (intros H; by apply H).
  apply filter_keep_all. by intros m Hm ->.
Qed.

(** X9.  In a reachable state where no element of the document has the
    requested id, [mount] followed by [cleanup] gives the document its
    body back: the same elements in the same order, each stored as it
    was, and both stored references cleared.  Both variants. *)
Theorem mount_cleanup_round_trip :
  (∀ (s : React.state) L p eid,
     React.reachable s →
     Dom.count_id (default React.default_elementId eid) (React.dom s) = 0 →
     ∃ s1 s2, React.mount L p eid s = Returned s1 ∧ React.cleanup s1 = Returned s2 ∧
       Dom.body (React.dom s2) = Dom.body (React.dom s) ∧
       (∀ m, m ∈ Dom.body (React.dom s) →
             Dom.elements (React.dom s2) !! m = Dom.elements (React.dom s) !! m) ∧
       React.phase_of_state s2 = Idle) ∧
  (∀ (s : Solid.state) L p eid,
     Solid.reachable s →
     Dom.count_id (default Solid.default_elementId eid) (Solid.dom s) = 0 →
     ∃ s1 s2, Solid.mount L p eid s = Returned s1 ∧ Solid.cleanup s1 = Returned s2 ∧
       Dom.body (Solid.dom s2) = Dom.body (Solid.dom s) ∧
       (∀ m, m ∈ Dom.body (Solid.dom s) →
             Dom.elements (Solid.dom s2) !! m = Dom.elements (Solid.dom s) !! m) ∧
       Solid.phase_of_state s2 = Idle).
Proof.
  split.
  - intros s L p eid Hinv%react_reachable_inv Hzero.
    destruct (dom_next_node_new _ (React.inv_dom s Hinv)) as [_ Hnew].
    destruct (react_no_id_stale s _ Hinv Hzero) as [Hstale Hnone].
    pose proof (react_mount_creates L p eid s (React.inv_dom s Hinv) Hstale Hnone) as Hm.
    set (s1 := {| React.root := Some (Backend.next_handle (React.backend s));
                  React.rootElement := Some (Dom.next_node (React.dom s));
                  React.dom := Dom.created (default React.default_elementId eid) (React.dom s);
                  React.backend := (Backend.render_new (VNode L p)
                                      (Dom.next_node (React.dom s)) (React.backend s)).2 |})
      in Hm.
    destruct (react_cleanup_attached s1 (Dom.next_node (React.dom s)) eq_refl)
      as (s2 & Hc & Hroot & Hre & Hdom).
    { apply created_body. by right. }
    exists s1, s2. split_and!; [exact Hm|exact Hc| | |].
    + rewrite Hdom. by apply created_removed_body, Hinv.
    + intros m Hm'. rewrite Hdom. simpl. apply lookup_insert_ne. by intros <-.
    + unfold React.phase_of_state. by rewrite Hroot, Hre.
  - intros s L p eid Hinv%solid_reachable_inv Hzero.
    destruct (dom_next_node_new _ (Solid.inv_dom s Hinv)) as [_ Hnew].
    destruct (solid_no_id_stale s _ Hinv Hzero) as [Hstale Hnone].
    destruct (solid_mount_creates L p eid s (Solid.inv_dom s Hinv) Hstale Hnone)
      as (s1 & Hm & Hre1 & Hdom1).
    destruct (solid_cleanup_attached s1 (Dom.next_node (Solid.dom s)) Hre1
      ltac:(rewrite Hdom1; apply created_body; by right)) as (s2 & Hc & Hd & Hre & Hdom).
    exists s1, s2. split_and!; [exact Hm|exact Hc| | |].
    + rewrite Hdom, Hdom1. by apply created_removed_body, Hinv.
    + intros m Hm'. rewrite Hdom, Hdom1. simpl. apply lookup_insert_ne. by intros <-.
    + unfold Solid.phase_of_state. by rewrite Hd, Hre.
Qed.

Lemma mount_cleanup_round_trip_witness :
  let d := Dom.created "sidebar" Dom.empty in
  (∃ r1 r2, React.mount "Layout" [] None (React.init d) = Returned r1 ∧
     React.cleanup r1 = Returned r2 ∧
     Dom.body (React.dom r2) = [0] ∧
     (∀ m, m ∈ Dom.body d → Dom.elements (React.dom r2) !! m = Dom.elements d !! m) ∧
     React.phase_of_state r2 = Idle) ∧
  (∃ s1 s2, Solid.mount "Layout" [] None (Solid.init d) = Returned s1 ∧
     Solid.cleanup s1 = Returned s2 ∧
     Dom.body (Solid.dom s2) = [0] ∧
     (∀ m, m ∈ Dom.body d → Dom.elements (Solid.dom s2) !! m = Dom.elements d !! m) ∧
     Solid.phase_of_state s2 = Idle).
Proof.
  intros d. split.
  - apply (proj1 mount_cleanup_round_trip (React.init d) "Layout" [] None).
    + apply React.reach_init, dom_wf_one.
    + reflexivity.
  - apply (proj2 mount_cleanup_round_trip (Solid.init d) "Layout" [] None).
    + apply Solid.reach_init, dom_wf_one.
    + reflexivity.
Defined.

End teardown.

Section compositions.

Local Opaque Backend.render_new.

(** X10.  [cleanup] also removes a root element that the mounter did not
    create: when [mount] found an element with the requested id already
    in the document, a [cleanup] after it takes that element out of the
    document.  Both variants. *)
Theorem cleanup_removes_adopted_element :
  (∀ (s s1 : React.state) L p eid n,
     React.reachable s →
     Dom.getElementById (default React.default_elementId eid) (React.dom s) = Some n →
     React.mount L p eid s = Returned s1 →
     ∃ s2, React.cleanup s1 = Returned s2 ∧
           n ∈ Dom.body (React.dom s) ∧ (n ∉ Dom.body (React.dom s2)) ∧
           ∀ m, m ≠ n → m ∈ Dom.body (React.dom s) → m ∈ Dom.body (React.dom s2)) ∧
  (∀ (s s1 : Solid.state) L p eid n,
     Solid.reachable s →
     Dom.getElementById (default Solid.default_elementId eid) (Solid.dom s) = Some n →
     Solid.mount L p eid s = Returned s1 →
     ∃ s2, Solid.cleanup s1 = Returned s2 ∧
           n ∈ Dom.body (Solid.dom s) ∧ (n ∉ Dom.body (Solid.dom s2)) ∧
           ∀ m, m ≠ n → m ∈ Dom.body (Solid.dom s) → m ∈ Dom.body (Solid.dom s2)).
Proof.
  split.
  - intros s s1 L p eid n Hinv%react_reachable_inv Hf Hm.
    destruct (react_mount_post _ _ _ _ _ Hinv Hm) as (_ & m & h & Hre & _ & Hm' & Hid & _).
    destruct (react_mount_dom _ _ _ _ _ Hinv Hm) as [[Hdom _]|(_ & _ & Hnone)]; [|congruence].
    apply dom_find_Some in Hf as (Hn & Hidn & Hne).
    assert (m = n) as ->.
    { rewrite Hdom in Hm', Hid. apply (Dom.wf_ids _ (React.inv_dom s Hinv)); congruence. }
    destruct (react_cleanup_attached s1 n Hre Hm') as (s2 & Hc & _ & _ & Hdom2).
    exists s2. split_and!; [done..| |].
    + rewrite Hdom2. apply dom_removeChild_gone.
    + intros k Hk Hkb. rewrite Hdom2, Hdom. by apply dom_removeChild_body.
  - intros s s1 L p eid n Hinv%solid_reachable_inv Hf Hm.
    destruct (solid_mount_post _ _ _ _ _ Hinv Hm) as (_ & m & h & Hre & _ & Hm' & Hid & _).
    destruct (solid_mount_dom _ _ _ _ _ Hinv Hm) as [[Hdom _]|(_ & _ & Hnone)]; [|congruence].
    apply dom_find_Some in Hf as (Hn & Hidn & Hne).
    assert (m = n) as ->.
    { rewrite Hdom in Hm', Hid. apply (Dom.wf_ids _ (Solid.inv_dom s Hinv)); congruence. }
    destruct (solid_cleanup_attached s1 n Hre Hm') as (s2 & Hc & _ & _ & Hdom2).
    exists s2. split_and!; [done..| |].
    + rewrite Hdom2. apply dom_removeChild_gone.
    + intros k Hk Hkb. rewrite Hdom2, Hdom. by apply dom_removeChild_body.
Qed.

Lemma cleanup_removes_adopted_element_witness :
  let d := Dom.created "app-root" Dom.empty in
  let r1 := state_after (React.mount "Layout" [] (Some "app-root") (React.init d)) in
  let s1 := state_after (Solid.mount "Layout" [] (Some "app-root") (Solid.init d)) in
  (∃ r2, React.cleanup r1 = Returned r2 ∧
         0 ∈ Dom.body d ∧ (0 ∉ Dom.body (React.dom r2)) ∧
         ∀ m, m ≠ 0 → m ∈ Dom.body d → m ∈ Dom.body (React.dom r2)) ∧
  (∃ s2, Solid.cleanup s1 = Returned s2 ∧
         0 ∈ Dom.body d ∧ (0 ∉ Dom.body (Solid.dom s2)) ∧
         ∀ m, m ≠ 0 → m ∈ Dom.body d → m ∈ Dom.body (Solid.dom s2)).
Proof.
  intros d r1 s1. split.
  - apply (proj1 cleanup_removes_adopted_element (React.init d) r1
             "Layout" [] (Some "app-root") 0).
    + apply React.reach_init, dom_wf_one.
    + reflexivity.
    + reflexivity.
  - apply (proj2 cleanup_removes_adopted_element (Solid.init d) s1
             "Layout" [] (Some "app-root") 0).
    + apply Solid.reach_init, dom_wf_one.
    + reflexivity.
    + reflexivity.
Defined.

(** X11.  [cleanup] absorbs what precedes and follows it: from every
    state, [unmount] then [cleanup] ends in the same state as [cleanup]
    alone, and so does [cleanup] twice in a row.  Both variants. *)
Theorem cleanup_absorbs_unmount_and_cleanup :
  (∀ s : React.state,
     React.run [Unmount; Cleanup] s = React.run [Cleanup] s ∧
     React.run [Cleanup; Cleanup] s = React.run [Cleanup] s) ∧
  (∀ s : Solid.state,
     Solid.run [Unmount; Cleanup] s = Solid.run [Cleanup] s ∧
     Solid.run [Cleanup; Cleanup] s = Solid.run [Cleanup] s).
Proof.
  split; intros s; simpl.
  - destruct (react_unmount_returns s) as (s1 & Hu & Hroot & _). split.
    + rewrite Hu. simpl. unfold React.cleanup at 2. rewrite Hu. simpl.
      unfold React.cleanup, React.unmount.
      destruct s1; simpl in *. subst. reflexivity.
    + unfold React.cleanup at 1 3. rewrite Hu. simpl.
      rewrite react_cleanup_idle; [done|simpl; by rewrite Hroot|done].
  - destruct (solid_unmount_returns s) as (s1 & Hu & Hd & _). split.
    + rewrite Hu. simpl. unfold Solid.cleanup at 2. rewrite Hu. simpl.
      unfold Solid.cleanup, Solid.unmount.
      destruct s1; simpl in *. subst. reflexivity.
    + unfold Solid.cleanup at 1 3. rewrite Hu. simpl.
      rewrite solid_cleanup_idle; [done|simpl; by rewrite Hd|done].
Qed.

(** X13.  The Solid [mount] in the Detached state, with the id of the
    root element still held: it returns, renders into the same element
    and leaves the document as it is, with exactly one live handle. *)
Theorem solid_remount_after_unmount L p eid (s : Solid.state) n :
  Solid.reachable s →
  Solid.dispose s = None → Solid.rootElement s = Some n →
  Dom.id_of (Solid.dom s) n = default Solid.default_elementId eid →
  ∃ s' h, Solid.mount L p eid s = Returned s' ∧
    Solid.dom s' = Solid.dom s ∧ Solid.rootElement s' = Some n ∧
    Solid.dispose s' = Some h ∧
    Backend.live (Solid.backend s') = {[ h := Backend.Tree n (Some (VNode L p)) ]}.
Proof.
  intros Hinv%solid_reachable_inv Hd Hre Hid.
  destruct (solid_mount_same_id L p eid s) as (s' & Hm & Hdom & Hre').
  { apply solid_stale_false. eauto. }
  destruct (solid_mount_post _ _ _ _ _ Hinv Hm) as (_ & m & h & Hre2 & Hd2 & _ & _ & Hlive).
  assert (m = n) as -> by congruence.
  exists s', h. split_and!; congruence.
Qed.

Lemma solid_remount_after_unmount_witness :
  let s := state_after (Solid.run [Mount "Layout" [] None; Unmount] (Solid.init Dom.empty)) in
  ∃ s' h, Solid.mount "Posts" [] None s = Returned s' ∧
    Solid.dom s' = Solid.dom s ∧ Solid.rootElement s' = Some 0 ∧
    Solid.dispose s' = Some h ∧
    Backend.live (Solid.backend s') = {[ h := Backend.Tree 0 (Some (VNode "Posts" [])) ]}.
Proof.
  apply solid_remount_after_unmount.
  - apply (solid_reachable_run [Mount "Layout" [] None; Unmount] (Solid.init Dom.empty));
      [apply Solid.reach_init, dom_wf_empty|reflexivity].
  - reflexivity.
  - reflexivity.
  - reflexivity.
Defined.

End compositions.

Section sessions.

Local Opaque Backend.render_new.

(** The first [mount] after the module is loaded, React: it returns and
    its root is the only live handle. *)
Lemma react_first_mount d L p eid :
  ∃ s h, React.mount L p eid (React.init d) = Returned s ∧
         React.root s = Some h ∧
         dom (Backend.live (React.backend s)) = {[ h ]}.
Proof.
  destruct (Dom.find_or_create (default React.default_elementId eid) d) as [n d'] eqn:Hfc.
  rewrite (react_mount_stale L p eid (React.init d) n d' eq_refl Hfc).
  eexists _, _. split; [done|]. cbn [React.root React.backend]. split; [done|].
  rewrite backend_render_new_eq. simpl. by rewrite insert_empty, dom_singleton_L.
Qed.

(** A router session before its last navigation, React: nothing was
    called yet, or a root is held for the requested id and it is the
    only live handle. *)
Lemma react_navigation_prefix d eid cs :
  Dom.wf d →
  ∃ s, React.run (mounts_at eid cs) (React.init d) = Returned s ∧
       React.reachable s ∧
       (s = React.init d ∨
        (React.stale s (default React.default_elementId eid) = false ∧
         ∃ h, React.root s = Some h ∧ dom (Backend.live (React.backend s)) = {[ h ]})).
Proof.
  intros Hwf. pose proof (React.reach_init d Hwf) as Hreach0.
  destruct cs as [|[L p] cs]; simpl.
  - eauto.
  - destruct (react_first_mount d L p eid) as (s1 & h & Hm & Hroot & Hlive).
    rewrite Hm. simpl.
    assert (React.reachable s1) as Hreach1
      by (apply (React.reach_step _ (Mount L p eid) _ Hreach0 Hm)).
    destruct (react_mount_post _ _ _ _ _ (react_reachable_inv _ Hreach0) Hm) as (Hstale & _).
    destruct (react_mounts_same_id eid cs s1 h Hstale Hroot)
      as (s2 & Hrun & Hdom & Hre & Hroot2 & Hlive2).
    exists s2. split_and!; [done|by eapply react_reachable_run|]. right. split.
    + unfold React.stale in *. by rewrite Hre, Hdom.
    + exists h. split; congruence.
Qed.

Lemma solid_run_mounts_returns eid cs (s : Solid.state) :
  ∃ s', Solid.run (mounts_at eid cs) s = Returned s'.
Proof.
  revert s. induction cs as [|[L p] cs IH]; intros s; simpl; [eauto|].
  destruct (solid_mount_returns L p eid s) as [s1 ->]. simpl. apply IH.
Qed.

(** X12.  A router session: the module is loaded in a well-formed
    document and then only [mount] is called, once per navigation and
    always with the same [elementId] (none, in the route actions of the
    documentation).  Every call returns, and after the last one the root
    element has the requested id and exactly one handle is live: the one
    held, showing the layout and props of the last navigation.  Both
    variants. *)
Theorem navigation_session_single_root :
  (∀ d eid cs c,
     Dom.wf d →
     ∃ s n h, React.run (mounts_at eid (cs ++ [c])) (React.init d) = Returned s ∧
       React.rootElement s = Some n ∧ React.root s = Some h ∧
       Dom.id_of (React.dom s) n = default React.default_elementId eid ∧
       Backend.live (React.backend s) = {[ h := Backend.Tree n (Some (VNode c.1 c.2)) ]}) ∧
  (∀ d eid cs c,
     Dom.wf d →
     ∃ s n h, Solid.run (mounts_at eid (cs ++ [c])) (Solid.init d) = Returned s ∧
       Solid.rootElement s = Some n ∧ Solid.dispose s = Some h ∧
       Dom.id_of (Solid.dom s) n = default Solid.default_elementId eid ∧
       Backend.live (Solid.backend s) = {[ h := Backend.Tree n (Some (VNode c.1 c.2)) ]}).
Proof.
  split; intros d eid cs c Hwf; unfold mounts_at; rewrite fmap_app; simpl.
  - rewrite react_run_app.
    destruct (react_navigation_prefix d eid cs Hwf) as (s0 & Hrun & Hreach & Hcase).
    unfold mounts_at in Hrun. rewrite Hrun. simpl.
    assert (∃ s h0, React.mount c.1 c.2 eid s0 = Returned s ∧ React.root s = Some h0 ∧
                    dom (Backend.live (React.backend s)) = {[ h0 ]}) as (s & h0 & Hm & Hroot & Hlive).
    { destruct Hcase as [->|(Hstale & h & Hroot & Hlive)].
      - apply react_first_mount.
      - destruct (react_mount_same_id c.1 c.2 eid s0 h Hstale Hroot)
          as (s & Hm & _ & _ & Hroot' & Hlive' & _).
        exists s, h. split_and!; congruence. }
    rewrite Hm. simpl.
    destruct (react_mount_post _ _ _ _ _ (react_reachable_inv _ Hreach) Hm)
      as (_ & n & h & Hre & Hroot2 & _ & Hid & Hr).
    assert (h = h0) as -> by congruence.
    exists s, n, h0. split_and!; try done.
    apply dom_singleton_inv_L in Hlive as [t Ht].
    unfold rendered_into in Hr. rewrite Ht, lookup_singleton_eq in Hr.
    by simplify_eq.
  - rewrite solid_run_app.
    destruct (solid_run_mounts_returns eid cs (Solid.init d)) as [s0 Hrun].
    unfold mounts_at in Hrun. rewrite Hrun. simpl.
    assert (Solid.reachable s0) as Hreach.
    { apply (solid_reachable_run _ _ _ (Solid.reach_init d Hwf) Hrun). }
    destruct (solid_mount_returns c.1 c.2 eid s0) as [s Hm]. rewrite Hm. simpl.
    destruct (solid_mount_post _ _ _ _ _ (solid_reachable_inv _ Hreach) Hm)
      as (_ & n & h & Hre & Hd & _ & Hid & Hlive).
    by exists s, n, h.
Qed.

Lemma navigation_session_single_root_witness :
  let cs := [("MainLayout", [("content", "PostList")]);
             ("MainLayout", [("content", "NewPost")])] in
  let c := ("MainLayout", [("content", "Post")]) in
  (∃ s n h, React.run (mounts_at None (cs ++ [c])) (React.init Dom.empty) = Returned s ∧
     React.rootElement s = Some n ∧ React.root s = Some h ∧
     Dom.id_of (React.dom s) n = "react-root" ∧
     Backend.live (React.backend s) =
       {[ h := Backend.Tree n (Some (VNode "MainLayout" [("content", "Post")])) ]}) ∧
  (∃ s n h, Solid.run (mounts_at None (cs ++ [c])) (Solid.init Dom.empty) = Returned s ∧
     Solid.rootElement s = Some n ∧ Solid.dispose s = Some h ∧
     Dom.id_of (Solid.dom s) n = "solid-root" ∧
     Backend.live (Solid.backend s) =
       {[ h := Backend.Tree n (Some (VNode "MainLayout" [("content", "Post")])) ]}).
Proof.
  intros cs c. split.
  - apply (proj1 navigation_session_single_root Dom.empty None cs c), dom_wf_empty.
  - apply (proj2 navigation_session_single_root Dom.empty None cs c), dom_wf_empty.
Defined.

End sessions.

Section variants.

Local Opaque Backend.render_new.

(** A live handle that the React mounter does not hold is out of its
    reach: no call disposes it, changes it or takes it up again. *)
Lemma react_unheld_handle_step o (s s' : React.state) h :
  React.inv s → React.root s ≠ Some h →
  is_Some (Backend.live (React.backend s) !! h) →
  React.step o s = Returned s' →
  React.root s' ≠ Some h ∧
  Backend.live (React.backend s') !! h = Backend.live (React.backend s) !! h.
Proof.
  intros Hinv Hne Hlive Hstep.
  pose proof (React.inv_backend s Hinv h Hlive) as Hlt.
  destruct o as [L p eid| |]; simpl in Hstep.
  - destruct (React.stale s (default React.default_elementId eid)) eqn:Hstale.
    + destruct (Dom.find_or_create (default React.default_elementId eid) (React.dom s))
        as [n d'] eqn:Hfc.
      rewrite (react_mount_stale _ _ _ _ _ _ Hstale Hfc) in Hstep. simplify_eq.
      cbn [React.root React.backend]. rewrite backend_render_new_eq. simpl. split.
      * intros [= Heq]. lia.
      * apply lookup_insert_ne. lia.
    + destruct (React.root s) as [h0|] eqn:Hroot.
      * rewrite (react_mount_reuse _ _ _ _ _ Hstale Hroot) in Hstep. simplify_eq.
        simpl. split; [done|]. apply lookup_alter_ne. congruence.
      * by rewrite (react_mount_null _ _ _ _ Hstale Hroot) in Hstep.
  - destruct (react_unmount_returns s) as (s1 & Hu & Hroot & _).
    destruct (react_unmount_handles s s' Hstep) as [_ Hkept].
    rewrite Hu in Hstep. simplify_eq. split; [congruence|by apply Hkept].
  - destruct (react_unmount_returns s) as (s1 & Hu & Hroot & _).
    destruct (react_unmount_handles s s1 Hu) as [_ Hkept].
    unfold React.cleanup in Hstep. rewrite Hu in Hstep. simpl in Hstep. simplify_eq.
    simpl. split; [congruence|by apply Hkept].
Qed.

Lemma react_unheld_handle_run os (s s' : React.state) h :
  React.inv s → React.root s ≠ Some h →
  is_Some (Backend.live (React.backend s) !! h) →
  React.run os s = Returned s' →
  React.root s' ≠ Some h ∧
  Backend.live (React.backend s') !! h = Backend.live (React.backend s) !! h.
Proof.
  revert s. induction os as [|o os IH]; intros s Hinv Hne Hlive; simpl.
  - by intros [= <-].
  - destruct (React.step o s) as [s1|] eqn:Hstep; simpl; [|done].
    destruct (react_unheld_handle_step o s s1 h Hinv Hne Hlive Hstep) as [Hne1 Heq1].
    intros Hrun.
    destruct (IH s1 (react_inv_step _ _ _ Hinv Hstep) Hne1 ltac:(by rewrite Heq1) Hrun)
      as [Hne2 Heq2].
    split; congruence.
Qed.

(** X14.  In the React variant a root that [mount] replaces is lost
    while live: when a root is held and [mount] is called with another
    id than the root element's, the call returns holding another root,
    and whatever calls follow, the root that was held is never held
    again and stays live, showing what it showed. *)
Theorem react_replaced_root_never_disposed L p eid (s : React.state) h :
  React.reachable s → React.root s = Some h →
  React.stale s (default React.default_elementId eid) = true →
  ∃ s1, React.mount L p eid s = Returned s1 ∧
    ∀ os s2, React.run os s1 = Returned s2 →
      React.root s2 ≠ Some h ∧
      is_Some (Backend.live (React.backend s2) !! h) ∧
      Backend.live (React.backend s2) !! h = Backend.live (React.backend s) !! h.
Proof.
  intros Hinv%react_reachable_inv Hroot Hstale.
  destruct (React.inv_root s Hinv h Hroot) as (n & c & _ & Hlive).
  pose proof (React.inv_backend s Hinv h ltac:(rewrite Hlive; eauto)) as Hlt.
  destruct (Dom.find_or_create (default React.default_elementId eid) (React.dom s))
    as [n' d'] eqn:Hfc.
  pose proof (react_mount_stale L p eid s n' d' Hstale Hfc) as Hm.
  eexists. split; [exact Hm|].
  intros os s2 Hrun.
  pose proof (react_inv_mount _ _ _ _ _ Hinv Hm) as Hinv1.
  assert (Backend.live (Backend.render_new (VNode L p) n' (React.backend s)).2 !! h =
          Backend.live (React.backend s) !! h) as Hkept.
  { rewrite backend_render_new_eq. simpl. apply lookup_insert_ne. lia. }
  assert (Some (Backend.next_handle (React.backend s)) ≠ Some h) as Hother
    by (intros [= Heq]; lia).
  assert (is_Some (Backend.live (Backend.render_new (VNode L p) n' (React.backend s)).2 !! h))
    as Hstill by (rewrite Hkept, Hlive; eauto).
  destruct (react_unheld_handle_run os _ s2 h Hinv1 Hother Hstill Hrun) as [Hne Heq].
  cbn [React.backend] in Heq. rewrite Heq, Hkept. split_and!; [done| |done].
  rewrite Hlive. eauto.
Qed.

Lemma react_replaced_root_never_disposed_witness :
  let s := state_after (React.mount "Layout" [] (Some "a") (React.init Dom.empty)) in
  ∃ s1, React.mount "Layout" [] (Some "b") s = Returned s1 ∧
    ∀ os s2, React.run os s1 = Returned s2 →
      React.root s2 ≠ Some 0 ∧
      is_Some (Backend.live (React.backend s2) !! 0) ∧
      Backend.live (React.backend s2) !! 0 = Backend.live (React.backend s) !! 0.
Proof.
  apply (react_replaced_root_never_disposed "Layout" [] (Some "b")).
  - apply (react_reachable_run [Mount "Layout" [] (Some "a")] (React.init Dom.empty));
      [apply React.reach_init, dom_wf_empty|reflexivity].
  - reflexivity.
  - reflexivity.
Defined.

(** The stored references after [cleanup]. *)
Lemma react_cleanup_refs (s s' : React.state) :
  React.cleanup s = Returned s' → React.root s' = None ∧ React.rootElement s' = None.
Proof.
  unfold React.cleanup.
  destruct (react_unmount_returns s) as (s1 & -> & Hroot & _). simpl.
  intros [= <-]. auto.
Qed.

Lemma solid_cleanup_refs (s s' : Solid.state) :
  Solid.cleanup s = Returned s' → Solid.dispose s' = None ∧ Solid.rootElement s' = None.
Proof.
  unfold Solid.cleanup.
  destruct (solid_unmount_returns s) as (s1 & -> & Hd & _). simpl.
  intros [= <-]. auto.
Qed.

(** One call that the React mounter completes, from states with the same
    document and the same root element. *)
Lemma solid_follows_react_step o (r r' : React.state) (s : Solid.state) :
  names_elementId o →
  Solid.dom s = React.dom r → Solid.rootElement s = React.rootElement r →
  (Solid.dispose s = None ↔ React.root r = None) →
  React.step o r = Returned r' →
  ∃ s', Solid.step o s = Returned s' ∧
        Solid.dom s' = React.dom r' ∧ Solid.rootElement s' = React.rootElement r' ∧
        (Solid.dispose s' = None ↔ React.root r' = None).
Proof.
  intros Hname Hdom Hre Hh Hstep. destruct o as [L p [e|]| |]; simpl in *; [|done| |].
  - destruct (solid_dispose_previous_frame s) as (_ & Hre1 & Hdom1).
    assert (Solid.stale (Solid.dispose_previous s) e = React.stale r e) as Hst.
    { unfold Solid.stale, React.stale. by rewrite Hre1, Hdom1, Hre, Hdom. }
    destruct (Solid.root_element_for e (Solid.dispose_previous s)) as [n s2] eqn:Hr.
    rewrite (solid_mount_eq L p (Some e) s n s2 Hr). eexists. split; [done|].
    cbn [Solid.dispose Solid.rootElement Solid.dom].
    destruct (solid_root_element_for_spec _ _ _ _ Hr) as (Hre2 & _ & _ & Hcase).
    destruct (React.stale r e) eqn:Hstale.
    + destruct (Dom.find_or_create e (React.dom r)) as [m d'] eqn:Hfc.
      rewrite (react_mount_stale L p (Some e) r m d' Hstale Hfc) in Hstep. simplify_eq.
      destruct Hcase as [[Hst' _]|[_ Hfc']]; [congruence|].
      rewrite Hdom1, Hdom in Hfc'. simpl in Hfc. rewrite Hfc in Hfc'. simplify_eq.
      simpl. split_and!; [congruence|done|done].
    + destruct (React.root r) as [h|] eqn:Hroot.
      * rewrite (react_mount_reuse L p (Some e) r h Hstale Hroot) in Hstep. simplify_eq.
        destruct Hcase as [[_ ->]|[Hst' _]]; [|congruence].
        simpl. split_and!; [congruence|congruence|done].
      * by rewrite (react_mount_null L p (Some e) r Hstale Hroot) in Hstep.
  - destruct (react_unmount_returns r) as (r1 & Hu & Hroot & Hre' & Hdom').
    destruct (solid_unmount_returns s) as (s1 & Hus & Hd & Hres & Hdoms).
    rewrite Hu in Hstep. simplify_eq. exists s1. split_and!; [done|congruence..|].
    by rewrite Hd, Hroot.
  - destruct (react_cleanup_dom r) as (r1 & Hc & _ & Hdomr).
    destruct (solid_cleanup_dom s) as (s1 & Hcs & _ & Hdoms).
    rewrite Hc in Hstep. simplify_eq.
    destruct (react_cleanup_refs _ _ Hc) as [Hroot Hrer].
    destruct (solid_cleanup_refs _ _ Hcs) as [Hd Hres].
    exists s1. split_and!; [done| |congruence|by rewrite Hd, Hroot].
    by rewrite Hdoms, Hdomr, Hre, Hdom.
Qed.

(** X15.  The Solid mounter follows the React mounter: every sequence of
    calls that name their [elementId] and that the React mounter
    completes from a document, the Solid mounter completes from the same
    document, and it ends with the same document and the same root
    element, holding a disposer exactly when React holds a root. *)
Theorem solid_agrees_with_react d os (r : React.state) :
  Forall names_elementId os →
  React.run os (React.init d) = Returned r →
  ∃ s, Solid.run os (Solid.init d) = Returned s ∧
       Solid.dom s = React.dom r ∧ Solid.rootElement s = React.rootElement r ∧
       (Solid.dispose s = None ↔ React.root r = None).
Proof.
  intros Hnames.
  assert (∀ (r0 : React.state) (s0 : Solid.state),
            Solid.dom s0 = React.dom r0 → Solid.rootElement s0 = React.rootElement r0 →
            (Solid.dispose s0 = None ↔ React.root r0 = None) →
            React.run os r0 = Returned r →
            ∃ s, Solid.run os s0 = Returned s ∧
                 Solid.dom s = React.dom r ∧ Solid.rootElement s = React.rootElement r ∧
                 (Solid.dispose s = None ↔ React.root r = None)) as Hsim.
  { induction Hnames as [|o os Ho _ IH]; intros r0 s0 Hdom Hre Hh; simpl.
    - intros [= <-]. eauto.
    - destruct (React.step o r0) as [r1|] eqn:Hstep; simpl; [|done].
      destruct (solid_follows_react_step o r0 r1 s0 Ho Hdom Hre Hh Hstep)
        as (s1 & -> & Hdom1 & Hre1 & Hh1).
      simpl. by apply IH. }
  by apply Hsim.
Qed.

Lemma solid_agrees_with_react_witness :
  let os := [Mount "Layout" [] (Some "app"); Mount "Posts" [] (Some "app");
             Mount "Layout" [] (Some "side"); Unmount; Cleanup;
             Mount "Layout" [] (Some "app")] in
  let r := state_after (React.run os (React.init Dom.empty)) in
  ∃ s, Solid.run os (Solid.init Dom.empty) = Returned s ∧
       Solid.dom s = React.dom r ∧ Solid.rootElement s = React.rootElement r ∧
       (Solid.dispose s = None ↔ React.root r = None).
Proof.
  intros os r. apply solid_agrees_with_react.
  - repeat constructor.
  - reflexivity.
Defined.

End variants.

(** * Repeated mounts and teardown, whatever the page *)

Section any_page.

Local Opaque Backend.render_new.

(** The element that [find_or_create] returns has the requested id, in
    whatever document. *)
Lemma dom_find_or_create_id i (d : Dom.document) n d' :
  Dom.find_or_create i d = (n, d') → Dom.id_of d' n = i.
Proof.
  unfold Dom.find_or_create. destruct (Dom.getElementById i d) as [m|] eqn:Hf.
  - intros [= <- <-]. by apply dom_find_Some in Hf as (_ & ? & _).
  - intros [= <- <-]. unfold Dom.id_of. simpl.
    by rewrite lookup_alter_eq, lookup_insert_eq.
Qed.

(** After a React [mount] that returned, from any state: a root is held
    and the root element has the requested id. *)
Lemma react_mount_holds L p eid (s s1 : React.state) :
  React.mount L p eid s = Returned s1 →
  React.stale s1 (default React.default_elementId eid) = false ∧
  ∃ h, React.root s1 = Some h.
Proof.
  intros Hm.
  destruct (React.stale s (default React.default_elementId eid)) eqn:Hstale.
  - destruct (Dom.find_or_create (default React.default_elementId eid) (React.dom s))
      as [n d'] eqn:Hfc.
    rewrite (react_mount_stale _ _ _ _ _ _ Hstale Hfc) in Hm. simplify_eq.
    split; [|by eexists].
    apply react_stale_false. exists n. split; [done|].
    by apply (dom_find_or_create_id _ (React.dom s)).
  - destruct (React.root s) as [h|] eqn:Hroot.
    + rewrite (react_mount_reuse _ _ _ _ _ Hstale Hroot) in Hm. simplify_eq.
      split; [exact Hstale|by eexists].
    + by rewrite (react_mount_null _ _ _ _ Hstale Hroot) in Hm.
Qed.

(** Repeated React [mount] calls with the id of the root element: the
    only backend calls are [render] on the root held. *)
Lemma react_remounts eid cs (s : React.state) h :
  React.stale s (default React.default_elementId eid) = false →
  React.root s = Some h →
  ∃ s', React.run (mounts_at eid cs) s = Returned s' ∧
        React.dom s' = React.dom s ∧
        React.rootElement s' = React.rootElement s ∧
        React.root s' = Some h ∧
        dom (Backend.live (React.backend s')) = dom (Backend.live (React.backend s)) ∧
        Backend.calls (React.backend s') =
          Backend.calls (React.backend s) ++
          ((λ c, Backend.Render h (VNode c.1 c.2)) <$> cs).
Proof.
  revert s. induction cs as [|[L p] cs IH]; intros s Hstale Hroot; simpl.
  - exists s. split_and!; try done. by rewrite app_nil_r.
  - rewrite (react_mount_reuse L p eid s h Hstale Hroot). simpl.
    edestruct IH as (s' & Hrun & Hdom & Hre & Hroot' & Hlive & Hcalls);
      [| |exists s'; split; [exact Hrun|]].
    + exact Hstale.
    + reflexivity.
    + simpl in *. split_and!; try done.
      * rewrite Hlive. apply dom_alter_L.
      * by rewrite Hcalls, <- app_assoc.
Qed.

(** After a Solid [mount], from any state: the disposer of a new handle
    is held and the root element has the requested id. *)
Lemma solid_mount_holds L p eid (s s1 : Solid.state) :
  Solid.mount L p eid s = Returned s1 →
  Solid.stale s1 (default Solid.default_elementId eid) = false ∧
  ∃ n, Solid.rootElement s1 = Some n ∧
       Solid.dispose s1 = Some (Backend.next_handle (Solid.backend s)) ∧
       Backend.next_handle (Solid.backend s1) = S (Backend.next_handle (Solid.backend s)).
Proof.
  intros Hm.
  destruct (Solid.root_element_for (default Solid.default_elementId eid)
    (Solid.dispose_previous s)) as [n s2] eqn:Hr.
  rewrite (solid_mount_eq _ _ _ _ _ _ Hr) in Hm. simplify_eq.
  destruct (solid_root_element_for_spec _ _ _ _ Hr) as (Hre & Hb & _ & Hcase).
  assert (Backend.next_handle (Solid.backend (Solid.dispose_previous s)) =
          Backend.next_handle (Solid.backend s)) as Hnext.
  { unfold Solid.dispose_previous. by destruct (Solid.dispose s). }
  split.
  - apply solid_stale_false. exists n. split; [done|]. cbn [Solid.dom].
    destruct Hcase as [[Hst ->]|[_ Hfc]].
    + apply solid_stale_false in Hst as (m & Hm & Hid). congruence.
    + by apply (dom_find_or_create_id _ _ _ _ Hfc).
  - exists n. cbn [Solid.rootElement Solid.dispose Solid.backend].
    rewrite backend_render_new_eq, Hb, Hnext. done.
Qed.

(** One Solid [mount] with the id of the root element while a disposer
    is held: dispose, create, render. *)
Lemma solid_remount L p eid (s : Solid.state) h n :
  Solid.dispose s = Some h → Solid.rootElement s = Some n →
  Solid.stale s (default Solid.default_elementId eid) = false →
  ∃ s', Solid.mount L p eid s = Returned s' ∧
    Solid.dom s' = Solid.dom s ∧ Solid.rootElement s' = Some n ∧
    Solid.stale s' (default Solid.default_elementId eid) = false ∧
    Solid.dispose s' = Some (Backend.next_handle (Solid.backend s)) ∧
    Backend.next_handle (Solid.backend s') = S (Backend.next_handle (Solid.backend s)) ∧
    Backend.calls (Solid.backend s') =
      Backend.calls (Solid.backend s) ++
      [Backend.Dispose h; Backend.Create (Backend.next_handle (Solid.backend s)) n;
       Backend.Render (Backend.next_handle (Solid.backend s)) (VNode L p)] ∧
    Backend.live (Solid.backend s') =
      <[Backend.next_handle (Solid.backend s) := Backend.Tree n (Some (VNode L p))]>
        (delete h (Backend.live (Solid.backend s))).
Proof.
  intros Hd Hre Hstale.
  assert (Solid.root_element_for (default Solid.default_elementId eid)
            (Solid.dispose_previous s) = (n, Solid.dispose_previous s)) as Hr.
  { unfold Solid.root_element_for, Solid.dispose_previous, Solid.stale in *.
    rewrite Hd. simpl. rewrite Hre in *. by rewrite Hstale. }
  rewrite (solid_mount_eq _ _ _ _ _ _ Hr). eexists. split; [done|].
  cbn [Solid.dom Solid.rootElement Solid.dispose Solid.backend].
  rewrite backend_render_new_eq. unfold Solid.dispose_previous. rewrite Hd. simpl.
  split_and!; try done.
  - unfold Solid.stale in *. simpl. by rewrite Hre in Hstale.
  - by rewrite <- app_assoc.
Qed.

(** Repeated Solid [mount] calls with the id of the root element: every
    call disposes the handle held and renders into a new one; a handle
    disposed is not live afterwards. *)
Lemma solid_remounts eid cs :
  ∀ (s : Solid.state) h n,
    Solid.dispose s = Some h → Solid.rootElement s = Some n →
    Solid.stale s (default Solid.default_elementId eid) = false →
    h < Backend.next_handle (Solid.backend s) →
    ∃ s' h', Solid.run (mounts_at eid cs) s = Returned s' ∧
      Solid.dom s' = Solid.dom s ∧ Solid.rootElement s' = Some n ∧
      Solid.dispose s' = Some h' ∧ h ≤ h' ∧
      (cs ≠ [] → Backend.next_handle (Solid.backend s) ≤ h') ∧
      Backend.calls (Solid.backend s') =
        Backend.calls (Solid.backend s) ++
        remount_calls h (Backend.next_handle (Solid.backend s)) n cs ∧
      (cs ≠ [] → Backend.live (Solid.backend s') !! h = None) ∧
      (∀ h0, h0 < Backend.next_handle (Solid.backend s) → h0 ≠ h →
             Backend.live (Solid.backend s) !! h0 = None →
             Backend.live (Solid.backend s') !! h0 = None).
Proof.
  induction cs as [|[L p] cs IH]; intros s h n Hd Hre Hstale Hlt; simpl.
  - exists s, h. split_and!; try done. by rewrite app_nil_r.
  - destruct (solid_remount L p eid s h n Hd Hre Hstale)
      as (sa & Hm & Hdom & Hrea & Hstalea & Hda & Hnext & Hcalls & Hlive).
    rewrite Hm. simpl.
    destruct (IH sa _ n Hda Hrea Hstalea ltac:(lia))
      as (s' & h' & Hrun & Hdom' & Hre' & Hd' & Hle & Hge & Hcalls' & _ & Hdead).
    assert (∀ h0, h0 < Backend.next_handle (Solid.backend s) →
                  Backend.live (Solid.backend sa) !! h0 =
                  delete h (Backend.live (Solid.backend s)) !! h0) as Hsa.
    { intros h0 Hh0. rewrite Hlive. apply lookup_insert_ne. lia. }
    exists s', h'. split_and!.
    + exact Hrun.
    + congruence.
    + exact Hre'.
    + exact Hd'.
    + lia.
    + intros _. lia.
    + rewrite Hcalls', Hcalls, Hnext, <- app_assoc. done.
    + intros _. apply Hdead; [lia|lia|].
      rewrite (Hsa h Hlt). apply lookup_delete_eq.
    + intros h0 Hh0 Hne Hnone. apply Hdead; [lia|lia|].
      rewrite (Hsa h0 Hh0), lookup_delete_ne by done. exact Hnone.
Qed.

End any_page.

Section same_id_mounts.

Local Opaque Backend.render_new.

(** C3, as stated, fails in three places.  In the Solid variant a second
    [mount] with the same [elementId] does not reuse the render handle:
    the disposer held afterwards is another one.  With the empty string
    as [elementId], under which [getElementById] finds nothing, [mount]
    calls separated by a [mount] with another id each create an element:
    further calls with the empty string then leave two elements with
    that id in the document.  And on a page that already has two
    elements with the id, [mount] adopts the first and further calls
    leave both in the document. *)
Lemma mount_same_id_reuse_fails :
  ¬ (∀ (s s1 s2 : Solid.state) L p L' p' eid,
       Solid.reachable s →
       Solid.mount L p eid s = Returned s1 →
       Solid.mount L' p' eid s1 = Returned s2 →
       Solid.dispose s2 = Solid.dispose s1) ∧
  (∃ s s1 s2,
     React.run [Mount "Layout" [] (Some ""); Mount "Layout" [] (Some "app-root")]
       (React.init Dom.empty) = Returned s ∧
     React.mount "Layout" [] (Some "") s = Returned s1 ∧
     React.run (mounts_at (Some "") [("Layout", [])]) s1 = Returned s2 ∧
     Dom.count_id "" (React.dom s2) = 2) ∧
  (∃ s1 s2,
     React.mount "Layout" [] (Some "x")
       (React.init (Dom.created "x" (Dom.created "x" Dom.empty))) = Returned s1 ∧
     React.run (mounts_at (Some "x") [("Layout", [])]) s1 = Returned s2 ∧
     React.rootElement s2 = Some 0 ∧
     Dom.count_id "x" (React.dom s2) = 2).
Proof.
  split_and!.
  - intros Hreuse.
    specialize (Hreuse (Solid.init Dom.empty) _ _ "Layout" [] "Layout" []
      (Some "app-root") (Solid.reach_init _ dom_wf_empty) eq_refl eq_refl).
    vm_compute in Hreuse. discriminate.
  - eexists _, _, _. split_and!; reflexivity.
  - eexists _, _. split_and!; reflexivity.
Qed.

(** C3, amended.  After a [mount] that returned, from any state, any
    further [mount] calls with the same [elementId] all return and leave
    the document as it was, with the same root element: nothing is
    created, so the container is neither duplicated nor recreated.  The
    React variant keeps the root it holds, and its only backend calls
    are [render] on that root.  The Solid variant, on each of these
    calls, disposes the handle held and then creates a handle and
    renders into it; a handle it held before is no longer live.  When
    the module was loaded in a well-formed document (no two elements
    with the same non-empty id) and the [elementId] is not the empty
    string, exactly one element of the document has that id
    afterwards. *)
Theorem mount_same_id_keeps_container :
  (∀ (s s1 : React.state) L p eid cs,
     React.mount L p eid s = Returned s1 →
     ∃ s2 h, React.root s1 = Some h ∧
       React.run (mounts_at eid cs) s1 = Returned s2 ∧
       React.dom s2 = React.dom s1 ∧
       React.rootElement s2 = React.rootElement s1 ∧
       React.root s2 = Some h ∧
       dom (Backend.live (React.backend s2)) = dom (Backend.live (React.backend s1)) ∧
       Backend.calls (React.backend s2) =
         Backend.calls (React.backend s1) ++
         ((λ c, Backend.Render h (VNode c.1 c.2)) <$> cs) ∧
       (∀ d os, Dom.wf d → React.run os (React.init d) = Returned s →
                default React.default_elementId eid ≠ "" →
                Dom.count_id (default React.default_elementId eid) (React.dom s2) = 1)) ∧
  (∀ (s s1 : Solid.state) L p eid cs,
     Solid.mount L p eid s = Returned s1 →
     ∃ s2 n h h2, Solid.rootElement s1 = Some n ∧ Solid.dispose s1 = Some h ∧
       Solid.run (mounts_at eid cs) s1 = Returned s2 ∧
       Solid.dom s2 = Solid.dom s1 ∧
       Solid.rootElement s2 = Some n ∧
       Solid.dispose s2 = Some h2 ∧
       Backend.calls (Solid.backend s2) =
         Backend.calls (Solid.backend s1) ++
         remount_calls h (Backend.next_handle (Solid.backend s1)) n cs ∧
       (cs ≠ [] → h2 ≠ h ∧ Backend.live (Solid.backend s2) !! h = None) ∧
       (∀ d os, Dom.wf d → Solid.run os (Solid.init d) = Returned s →
                default Solid.default_elementId eid ≠ "" →
                Dom.count_id (default Solid.default_elementId eid) (Solid.dom s2) = 1)).
Proof.
  split.
  - intros s s1 L p eid cs Hm.
    destruct (react_mount_holds _ _ _ _ _ Hm) as (Hstale & h & Hroot).
    destruct (react_remounts eid cs s1 h Hstale Hroot)
      as (s2 & Hrun & Hdom & Hre2 & Hroot2 & Hlive & Hcalls).
    exists s2, h. split_and!; try done.
    intros d os Hwf Hos Hne.
    pose proof (react_reachable_inv _
      (react_reachable_run os _ _ (React.reach_init d Hwf) Hos)) as Hinv.
    pose proof (react_inv_mount _ _ _ _ _ Hinv Hm) as Hinv1.
    destruct (react_mount_post _ _ _ _ _ Hinv Hm) as (_ & n & _ & _ & _ & Hn & Hid & _).
    rewrite Hdom, <- Hid.
    apply dom_count_unique; [apply Hinv1|done|by rewrite Hid].
  - intros s s1 L p eid cs Hm.
    destruct (solid_mount_holds _ _ _ _ _ Hm) as (Hstale & n & Hre & Hd & Hnext).
    destruct (solid_remounts eid cs s1 _ n Hd Hre Hstale ltac:(lia))
      as (s2 & h2 & Hrun & Hdom & Hre2 & Hd2 & Hle & Hge & Hcalls & Hdead & _).
    exists s2, n, (Backend.next_handle (Solid.backend s)), h2.
    split_and!; try done.
    + intros Hcs. split; [|by apply Hdead].
      specialize (Hge Hcs). lia.
    + intros d os Hwf Hos Hne.
      pose proof (solid_reachable_inv _
        (solid_reachable_run os _ _ (Solid.reach_init d Hwf) Hos)) as Hinv.
      pose proof (solid_inv_mount _ _ _ _ _ Hinv Hm) as Hinv1.
      destruct (solid_mount_post _ _ _ _ _ Hinv Hm) as (_ & m & _ & _ & _ & Hn & Hid & _).
      rewrite Hdom, <- Hid.
      apply dom_count_unique; [apply Hinv1|done|by rewrite Hid].
Qed.

Lemma mount_same_id_keeps_container_witness :
  let r1 := state_after (React.mount "Layout" [("content", "X")] (Some "app-root")
                           (React.init Dom.empty)) in
  let s1 := state_after (Solid.mount "Layout" [("content", "X")] (Some "app-root")
                           (Solid.init Dom.empty)) in
  let cs := [("Posts", []); ("Layout", [("content", "Y")])] in
  (∃ r2, React.run (mounts_at (Some "app-root") cs) r1 = Returned r2 ∧
         React.dom r2 = React.dom r1 ∧
         React.rootElement r2 = React.rootElement r1 ∧
         React.root r2 = Some 0 ∧
         Backend.calls (React.backend r2) =
           Backend.calls (React.backend r1) ++
           [Backend.Render 0 (VNode "Posts" []);
            Backend.Render 0 (VNode "Layout" [("content", "Y")])] ∧
         Dom.count_id "app-root" (React.dom r2) = 1) ∧
  (∃ s2, Solid.run (mounts_at (Some "app-root") cs) s1 = Returned s2 ∧
         Solid.dom s2 = Solid.dom s1 ∧
         Solid.rootElement s2 = Some 0 ∧
         Solid.dispose s2 = Some 2 ∧
         Backend.calls (Solid.backend s2) =
           Backend.calls (Solid.backend s1) ++
           [Backend.Dispose 0; Backend.Create 1 0; Backend.Render 1 (VNode "Posts" []);
            Backend.Dispose 1; Backend.Create 2 0;
            Backend.Render 2 (VNode "Layout" [("content", "Y")])] ∧
         Backend.live (Solid.backend s2) !! 0 = None ∧
         Dom.count_id "app-root" (Solid.dom s2) = 1).
Proof.
  intros r1 s1 cs. split.
  - destruct (proj1 mount_same_id_keeps_container (React.init Dom.empty) r1
               "Layout" [("content", "X")] (Some "app-root") cs eq_refl)
      as (r2 & h & Hroot & Hrun & Hdom & Hre & Hroot2 & _ & Hcalls & Hcount).
    assert (h = 0) as -> by (vm_compute in Hroot; congruence).
    exists r2. split_and!; try done.
    apply (Hcount Dom.empty []); [apply dom_wf_empty|reflexivity|done].
  - destruct (proj2 mount_same_id_keeps_container (Solid.init Dom.empty) s1
               "Layout" [("content", "X")] (Some "app-root") cs eq_refl)
      as (s2 & n & h & h2 & Hre & Hd & Hrun & Hdom & Hre2 & Hd2 & Hcalls & Hnew & Hcount).
    assert (n = 0) as -> by (vm_compute in Hre; congruence).
    assert (h = 0) as -> by (vm_compute in Hd; congruence).
    assert (h2 = 2) as ->.
    { vm_compute in Hrun. injection Hrun as <-. vm_compute in Hd2. congruence. }
    exists s2. split_and!; try done.
    + by apply Hnew.
    + apply (Hcount Dom.empty []); [apply dom_wf_empty|reflexivity|done].
Defined.

End same_id_mounts.

Section teardown_any_page.

Local Opaque Backend.render_new.

(** The body left by [cleanup], in the order it had. *)
Lemma cleanup_body_filter (re : option nat) (d : Dom.document) :
  Dom.body
    match re with
    | Some n => if bool_decide (n ∈ Dom.body d)
                then Dom.removeChild Dom.BodyRef n d else d
    | None => d
    end =
  filter (λ m, re ≠ Some m) (Dom.body d).
Proof.
  destruct re as [n|].
  - destruct (bool_decide_reflect (n ∈ Dom.body d)) as [Hn|Hn]; simpl.
    + apply list_filter_iff. intros m. split; [by intros ? [= ->]|by intros ? ->].
    + symmetry. apply filter_keep_all. by intros m Hm [= ->].
  - symmetry. by apply filter_keep_all.
Qed.

(** C6, as stated, fails after a change of [elementId].  In the React
    variant [mount], [mount] with another id, [cleanup] leaves the tree
    of the first root rendered, in its container; in both variants the
    first container is still in the document, which is not the document
    in which [mount] was never called. *)
Lemma cleanup_leaves_previous_container :
  (∃ r, React.run [Mount "Layout" [] (Some "app-root");
                   Mount "Layout" [] (Some "other-root"); Cleanup]
          (React.init Dom.empty) = Returned r ∧
        Backend.live (React.backend r) !! 0 =
          Some (Backend.Tree 0 (Some (VNode "Layout" []))) ∧
        Dom.id_of (React.dom r) 0 = "app-root" ∧
        Dom.body (React.dom r) = [0]) ∧
  (∃ s, Solid.run [Mount "Layout" [] (Some "app-root");
                   Mount "Layout" [] (Some "other-root"); Cleanup]
          (Solid.init Dom.empty) = Returned s ∧
        Backend.live (Solid.backend s) = ∅ ∧
        Dom.id_of (Solid.dom s) 0 = "app-root" ∧
        Dom.body (Solid.dom s) = [0]).
Proof. split; eexists; split_and!; reflexivity. Qed.

(** C6, amended.  [cleanup] returns from every state, and afterwards
    the handle that was held is disposed, the container element that was
    held is not in the document, and both stored references are cleared:
    the lifecycle is in the Idle state.  Nothing else changes: the other
    elements of the document stay, in their order (a container left by
    an earlier [mount] with another id included), no element is created
    or changed, and every other render handle is as it was.  So when the
    handle held was the only live one, no tree is live afterwards.  Both
    variants. *)
Theorem cleanup_leaves_idle :
  (∀ s : React.state,
     ∃ s', React.cleanup s = Returned s' ∧
           React.root s' = None ∧ React.rootElement s' = None ∧
           React.phase_of_state s' = Idle ∧
           (∀ h, React.root s = Some h → Backend.live (React.backend s') !! h = None) ∧
           (∀ h, React.root s ≠ Some h →
                 Backend.live (React.backend s') !! h = Backend.live (React.backend s) !! h) ∧
           (∀ n, React.rootElement s = Some n → n ∉ Dom.body (React.dom s')) ∧
           Dom.body (React.dom s') =
             filter (λ m, React.rootElement s ≠ Some m) (Dom.body (React.dom s)) ∧
           Dom.elements (React.dom s') = Dom.elements (React.dom s) ∧
           ((∀ h, is_Some (Backend.live (React.backend s) !! h) → React.root s = Some h) →
            Backend.live (React.backend s') = ∅)) ∧
  (∀ s : Solid.state,
     ∃ s', Solid.cleanup s = Returned s' ∧
           Solid.dispose s' = None ∧ Solid.rootElement s' = None ∧
           Solid.phase_of_state s' = Idle ∧
           (∀ h, Solid.dispose s = Some h → Backend.live (Solid.backend s') !! h = None) ∧
           (∀ h, Solid.dispose s ≠ Some h →
                 Backend.live (Solid.backend s') !! h = Backend.live (Solid.backend s) !! h) ∧
           (∀ n, Solid.rootElement s = Some n → n ∉ Dom.body (Solid.dom s')) ∧
           Dom.body (Solid.dom s') =
             filter (λ m, Solid.rootElement s ≠ Some m) (Dom.body (Solid.dom s)) ∧
           Dom.elements (Solid.dom s') = Dom.elements (Solid.dom s) ∧
           ((∀ h, is_Some (Backend.live (Solid.backend s) !! h) → Solid.dispose s = Some h) →
            Backend.live (Solid.backend s') = ∅)).
Proof.
  split; intros s.
  - destruct (react_cleanup_dom s) as (s' & Hc & Hb & Hdom).
    destruct (react_cleanup_refs _ _ Hc) as [Hroot Hre].
    destruct (react_unmount_returns s) as (s1 & Hu & _).
    destruct (react_unmount_handles s s1 Hu) as [Hgone Hkept].
    pose proof (react_unmount_no_tree s s1 Hu) as Hnone.
    rewrite Hu in Hb. simpl in Hb.
    assert (Dom.body (React.dom s') =
            filter (λ m, React.rootElement s ≠ Some m) (Dom.body (React.dom s))) as Hbody
      by (rewrite Hdom; apply cleanup_body_filter).
    exists s'. split_and!.
    + exact Hc.
    + exact Hroot.
    + exact Hre.
    + unfold React.phase_of_state. by rewrite Hroot, Hre.
    + intros h Hh. rewrite Hb. by apply Hgone.
    + intros h Hh. rewrite Hb. by apply Hkept.
    + intros n Hn. rewrite Hbody.
      rewrite (list_elem_of_filter (λ m, React.rootElement s ≠ Some m)).
      by intros [Hne _].
    + exact Hbody.
    + rewrite Hdom. destruct (React.rootElement s) as [n|]; [|done].
      by destruct (bool_decide (n ∈ Dom.body (React.dom s))).
    + intros Honly. rewrite Hb. by apply Hnone.
  - destruct (solid_cleanup_dom s) as (s' & Hc & Hb & Hdom).
    destruct (solid_cleanup_refs _ _ Hc) as [Hd Hre].
    destruct (solid_unmount_returns s) as (s1 & Hu & _).
    destruct (solid_unmount_handles s s1 Hu) as [Hgone Hkept].
    pose proof (solid_unmount_no_tree s s1 Hu) as Hnone.
    rewrite Hu in Hb. simpl in Hb.
    assert (Dom.body (Solid.dom s') =
            filter (λ m, Solid.rootElement s ≠ Some m) (Dom.body (Solid.dom s))) as Hbody
      by (rewrite Hdom; apply cleanup_body_filter).
    exists s'. split_and!.
    + exact Hc.
    + exact Hd.
    + exact Hre.
    + unfold Solid.phase_of_state. by rewrite Hd, Hre.
    + intros h Hh. rewrite Hb. by apply Hgone.
    + intros h Hh. rewrite Hb. by apply Hkept.
    + intros n Hn. rewrite Hbody.
      rewrite (list_elem_of_filter (λ m, Solid.rootElement s ≠ Some m)).
      by intros [Hne _].
    + exact Hbody.
    + rewrite Hdom. destruct (Solid.rootElement s) as [n|]; [|done].
      by destruct (bool_decide (n ∈ Dom.body (Solid.dom s))).
    + intros Honly. rewrite Hb. by apply Hnone.
Qed.

Lemma cleanup_leaves_idle_witness :
  let os := [Mount "Layout" [] (Some "app-root"); Mount "Layout" [] (Some "other-root")] in
  let r := state_after (React.run os (React.init Dom.empty)) in
  let s := state_after (Solid.run os (Solid.init Dom.empty)) in
  (∃ r', React.cleanup r = Returned r' ∧ React.phase_of_state r' = Idle ∧
         Backend.live (React.backend r') !! 1 = None ∧
         Backend.live (React.backend r') !! 0 = Backend.live (React.backend r) !! 0 ∧
         (1 ∉ Dom.body (React.dom r')) ∧
         Dom.body (React.dom r') = [0]) ∧
  (∃ s', Solid.cleanup s = Returned s' ∧ Solid.phase_of_state s' = Idle ∧
         Backend.live (Solid.backend s') !! 1 = None ∧
         (1 ∉ Dom.body (Solid.dom s')) ∧
         Dom.body (Solid.dom s') = [0] ∧
         Backend.live (Solid.backend s') = ∅).
Proof.
  intros os r s. split.
  - destruct (proj1 cleanup_leaves_idle r)
      as (r' & Hc & _ & _ & Hidle & Hgone & Hkept & Hout & Hbody & _).
    exists r'. split_and!.
    + exact Hc.
    + exact Hidle.
    + apply Hgone. reflexivity.
    + apply Hkept. vm_compute. discriminate.
    + apply Hout. reflexivity.
    + rewrite Hbody. reflexivity.
  - destruct (proj2 cleanup_leaves_idle s)
      as (s' & Hc & _ & _ & Hidle & Hgone & _ & Hout & Hbody & _ & Hnone).
    exists s'. split_and!.
    + exact Hc.
    + exact Hidle.
    + apply Hgone. reflexivity.
    + apply Hout. reflexivity.
    + rewrite Hbody. reflexivity.
    + apply Hnone, solid_reachable_tracks_handles.
      apply (solid_reachable_run os (Solid.init Dom.empty));
        [apply Solid.reach_init, dom_wf_empty|reflexivity].
Defined.

(** What [cleanup] and then [mount] with the id of the removed root
    element do, from a state that satisfies the invariant. *)
Lemma react_cleanup_then_mount L p eid (s : React.state) n :
  React.inv s → React.rootElement s = Some n →
  Dom.id_of (React.dom s) n = default React.default_elementId eid →
  ∃ s1 s2 n' h,
    React.cleanup s = Returned s1 ∧ (n ∉ Dom.body (React.dom s1)) ∧
    React.mount L p eid s1 = Returned s2 ∧
    React.rootElement s2 = Some n' ∧ n' ≠ n ∧ React.root s2 = Some h ∧
    container_created (default React.default_elementId eid)
      (React.dom s1) (React.dom s2) n' ∧
    rendered_into (React.backend s2) h n' L p.
Proof.
  intros Hinv Hre Hid.
  pose proof (React.inv_attached s Hinv n Hre) as Hn.
  destruct (react_cleanup_attached s n Hre Hn) as (s1 & Hc & _ & Hre1 & Hdom1).
  pose proof (react_inv_cleanup _ _ Hinv Hc) as Hinv1.
  destruct (react_mount_creates_spec L p eid s1 Hinv1) as (s2 & h & Hm & Hre2 & Hroot2 & Hcc & Hr).
  { unfold React.stale. by rewrite Hre1. }
  { rewrite Hdom1, <- Hid. apply dom_removeChild_frees_id; [apply Hinv|done]. }
  exists s1, s2, (Dom.next_node (React.dom s1)), h. split_and!; try done.
  + rewrite Hdom1. apply dom_removeChild_gone.
  + rewrite Hdom1. simpl.
    pose proof (Dom.wf_fresh _ (React.inv_dom s Hinv) n
                  (Dom.wf_alloc _ (React.inv_dom s Hinv) n Hn)). lia.
Qed.

Lemma solid_cleanup_then_mount L p eid (s : Solid.state) n :
  Solid.inv s → Solid.rootElement s = Some n →
  Dom.id_of (Solid.dom s) n = default Solid.default_elementId eid →
  ∃ s1 s2 n' h,
    Solid.cleanup s = Returned s1 ∧ (n ∉ Dom.body (Solid.dom s1)) ∧
    Solid.mount L p eid s1 = Returned s2 ∧
    Solid.rootElement s2 = Some n' ∧ n' ≠ n ∧ Solid.dispose s2 = Some h ∧
    container_created (default Solid.default_elementId eid)
      (Solid.dom s1) (Solid.dom s2) n' ∧
    rendered_into (Solid.backend s2) h n' L p.
Proof.
  intros Hinv Hre Hid.
  pose proof (Solid.inv_attached s Hinv n Hre) as Hn.
  destruct (solid_cleanup_attached s n Hre Hn) as (s1 & Hc & _ & Hre1 & Hdom1).
  pose proof (solid_inv_cleanup _ _ Hinv Hc) as Hinv1.
  destruct (solid_mount_creates_spec L p eid s1 Hinv1) as (s2 & h & Hm & Hre2 & Hd2 & Hcc & Hr).
  { unfold Solid.stale. by rewrite Hre1. }
  { rewrite Hdom1, <- Hid. apply dom_removeChild_frees_id; [apply Hinv|done]. }
  exists s1, s2, (Dom.next_node (Solid.dom s1)), h. split_and!; try done.
  + rewrite Hdom1. apply dom_removeChild_gone.
  + rewrite Hdom1. simpl.
    pose proof (Dom.wf_fresh _ (Solid.inv_dom s Hinv) n
                  (Dom.wf_alloc _ (Solid.inv_dom s Hinv) n Hn)). lia.
Qed.

(** C9, as stated, fails on a page that has two elements with the id:
    [mount] adopts the first, [cleanup] removes it, and the next [mount]
    with that id adopts the second one: no element is created and none
    is appended.  Both variants. *)
Lemma cleanup_then_mount_adopts_duplicate :
  let d := Dom.created "x" (Dom.created "x" Dom.empty) in
  (∃ s s1 s2,
     React.mount "Layout" [] (Some "x") (React.init d) = Returned s ∧
     React.rootElement s = Some 0 ∧
     React.cleanup s = Returned s1 ∧
     React.mount "Layout" [] (Some "x") s1 = Returned s2 ∧
     React.rootElement s2 = Some 1 ∧
     Dom.body (React.dom s2) = Dom.body (React.dom s1) ∧
     Dom.elements (React.dom s2) = Dom.elements d) ∧
  (∃ s s1 s2,
     Solid.mount "Layout" [] (Some "x") (Solid.init d) = Returned s ∧
     Solid.rootElement s = Some 0 ∧
     Solid.cleanup s = Returned s1 ∧
     Solid.mount "Layout" [] (Some "x") s1 = Returned s2 ∧
     Solid.rootElement s2 = Some 1 ∧
     Dom.body (Solid.dom s2) = Dom.body (Solid.dom s1) ∧
     Dom.elements (Solid.dom s2) = Dom.elements d).
Proof. split; eexists _, _, _; split_and!; reflexivity. Qed.

(** C9, amended.  When the module was loaded in a well-formed document
    (no two elements with the same non-empty id) and holds a root
    element after any calls, [cleanup] returns with that element removed
    from the document, and a [mount] with the id of the removed element
    then returns after it created a new [div] with that id (another
    element than the removed one), appended it to the body and rendered
    into it.  Both variants. *)
Theorem cleanup_then_mount_recreates :
  (∀ d os (s : React.state) L p eid n,
     Dom.wf d → React.run os (React.init d) = Returned s →
     React.rootElement s = Some n →
     Dom.id_of (React.dom s) n = default React.default_elementId eid →
     ∃ s1 s2 n' h,
       React.cleanup s = Returned s1 ∧ (n ∉ Dom.body (React.dom s1)) ∧
       React.mount L p eid s1 = Returned s2 ∧
       React.rootElement s2 = Some n' ∧ n' ≠ n ∧ React.root s2 = Some h ∧
       container_created (default React.default_elementId eid)
         (React.dom s1) (React.dom s2) n' ∧
       rendered_into (React.backend s2) h n' L p) ∧
  (∀ d os (s : Solid.state) L p eid n,
     Dom.wf d → Solid.run os (Solid.init d) = Returned s →
     Solid.rootElement s = Some n →
     Dom.id_of (Solid.dom s) n = default Solid.default_elementId eid →
     ∃ s1 s2 n' h,
       Solid.cleanup s = Returned s1 ∧ (n ∉ Dom.body (Solid.dom s1)) ∧
       Solid.mount L p eid s1 = Returned s2 ∧
       Solid.rootElement s2 = Some n' ∧ n' ≠ n ∧ Solid.dispose s2 = Some h ∧
       container_created (default Solid.default_elementId eid)
         (Solid.dom s1) (Solid.dom s2) n' ∧
       rendered_into (Solid.backend s2) h n' L p).
Proof.
  split.
  - intros d os s L p eid n Hwf Hos Hre Hid.
    apply react_cleanup_then_mount; [|done..].
    apply react_reachable_inv.
    by apply (react_reachable_run os (React.init d)); [apply React.reach_init|].
  - intros d os s L p eid n Hwf Hos Hre Hid.
    apply solid_cleanup_then_mount; [|done..].
    apply solid_reachable_inv.
    by apply (solid_reachable_run os (Solid.init d)); [apply Solid.reach_init|].
Qed.

Lemma cleanup_then_mount_recreates_witness :
  let d := Dom.created "sidebar" Dom.empty in
  let r := state_after (React.run [Mount "Layout" [] None] (React.init d)) in
  let s := state_after (Solid.run [Mount "Layout" [] None] (Solid.init d)) in
  (∃ r1 r2 n' h,
     React.cleanup r = Returned r1 ∧ (1 ∉ Dom.body (React.dom r1)) ∧
     React.mount "Layout" [] None r1 = Returned r2 ∧
     React.rootElement r2 = Some n' ∧ n' ≠ 1 ∧ React.root r2 = Some h ∧
     container_created "react-root" (React.dom r1) (React.dom r2) n' ∧
     rendered_into (React.backend r2) h n' "Layout" []) ∧
  (∃ s1 s2 n' h,
     Solid.cleanup s = Returned s1 ∧ (1 ∉ Dom.body (Solid.dom s1)) ∧
     Solid.mount "Layout" [] None s1 = Returned s2 ∧
     Solid.rootElement s2 = Some n' ∧ n' ≠ 1 ∧ Solid.dispose s2 = Some h ∧
     container_created "solid-root" (Solid.dom s1) (Solid.dom s2) n' ∧
     rendered_into (Solid.backend s2) h n' "Layout" []).
Proof.
  intros d r s. split.
  - apply (proj1 cleanup_then_mount_recreates d [Mount "Layout" [] None] r
             "Layout" [] None 1).
    + apply dom_wf_one.
    + reflexivity.
    + reflexivity.
    + reflexivity.
  - apply (proj2 cleanup_then_mount_recreates d [Mount "Layout" [] None] s
             "Layout" [] None 1).
    + apply dom_wf_one.
    + reflexivity.
    + reflexivity.
    + reflexivity.
Defined.

End teardown_any_page.
